(** * LifeLine Health Plans backend: the form-submission intake pipeline

    A shallow embedding of [server.js]: the request handlers of the Express
    application are written as functions in a state-and-exception monad over
    an explicit world (the relational store behind [pool], the mail
    transport behind [transporter], the console and the clock), and the
    properties of the intake pipeline are proved about them. *)

From Stdlib Require Import ZArith NArith Bool List Ascii String Lia.
From stdpp Require Import base option list strings gmap.

Local Open Scope string_scope.
Local Open Scope Z_scope.

Set Warnings "-register-all".

(** ** JavaScript values *)

(** A JavaScript number: a double is NaN, an infinity, negative zero, or
    [mantissa * 2 ^ exponent].  Positive zero is [NumDyadic 0 e]. *)
Inductive JsNumber :=
| NumNaN
| NumInfinity (negative : bool)
| NumNegZero
| NumDyadic (mantissa exponent : Z).

Definition Number_of_Z (z : Z) : JsNumber := NumDyadic z 0.

Definition Number_eqb (a b : JsNumber) : bool :=
  match a, b with
  | NumNaN, NumNaN => true
  | NumInfinity s, NumInfinity t => Bool.eqb s t
  | NumNegZero, NumNegZero => true
  | NumDyadic m e, NumDyadic m' e' => (m =? m') && (e =? e')
  | _, _ => false
  end.

(** The values a parsed request body is made of, and [undefined]. Objects
    keep their properties in insertion order. *)
Inductive JsValue :=
| JUndefined
| JNull
| JBool (b : bool)
| JNum (n : JsNumber)
| JStr (s : string)
| JArr (items : list JsValue)
| JObj (props : list (string * JsValue)).

(** Induction over values that descends into arrays and objects. *)
Section JsValue_induction.
Variable P : JsValue -> Prop.
Hypothesis P_undefined : P JUndefined.
Hypothesis P_null : P JNull.
Hypothesis P_bool : forall b, P (JBool b).
Hypothesis P_num : forall n, P (JNum n).
Hypothesis P_str : forall s, P (JStr s).
Hypothesis P_arr : forall items, Forall P items -> P (JArr items).
Hypothesis P_obj : forall props, Forall (fun kv => P (snd kv)) props -> P (JObj props).

Fixpoint JsValue_nested_ind (v : JsValue) : P v :=
  match v with
  | JUndefined => P_undefined
  | JNull => P_null
  | JBool b => P_bool b
  | JNum n => P_num n
  | JStr s => P_str s
  | JArr items =>
      P_arr items
        ((fix all (l : list JsValue) : Forall P l :=
            match l with
            | [] => @List.Forall_nil _ P
            | x :: l' => @List.Forall_cons _ P x l' (JsValue_nested_ind x) (all l')
            end) items)
  | JObj props =>
      P_obj props
        ((fix all (l : list (string * JsValue)) : Forall (fun kv => P (snd kv)) l :=
            match l with
            | [] => @List.Forall_nil _ _
            | kv :: l' =>
                @List.Forall_cons _ (fun kv => P (snd kv)) kv l'
                  (JsValue_nested_ind (snd kv)) (all l')
            end) props)
  end.
End JsValue_induction.

(** Structural equality of values, as a boolean. *)
Fixpoint JsValue_eqb (a b : JsValue) {struct a} : bool :=
  match a, b with
  | JUndefined, JUndefined => true
  | JNull, JNull => true
  | JBool x, JBool y => Bool.eqb x y
  | JNum x, JNum y => Number_eqb x y
  | JStr x, JStr y => String.eqb x y
  | JArr xs, JArr ys =>
      (fix all (l : list JsValue) (r : list JsValue) {struct l} : bool :=
         match l, r with
         | [], [] => true
         | x :: l', y :: r' => JsValue_eqb x y && all l' r'
         | _, _ => false
         end) xs ys
  | JObj ps, JObj qs =>
      (fix all (l : list (string * JsValue)) (r : list (string * JsValue))
           {struct l} : bool :=
         match l, r with
         | [], [] => true
         | kv :: l', kw :: r' =>
             String.eqb (fst kv) (fst kw) && JsValue_eqb (snd kv) (snd kw) && all l' r'
         | _, _ => false
         end) ps qs
  | _, _ => false
  end.

(** ECMAScript ToBoolean: what [!x], [x || y] and [if (x)] test. *)
Definition ToBoolean (v : JsValue) : bool :=
  match v with
  | JUndefined | JNull => false
  | JBool b => b
  | JNum NumNaN | JNum NumNegZero => false
  | JNum (NumDyadic m _) => negb (m =? 0)
  | JNum (NumInfinity _) => true
  | JStr s => negb (String.eqb s "")
  | JArr _ | JObj _ => true
  end.

(** [a || b] on values. *)
Definition js_or (a b : JsValue) : JsValue := if ToBoolean a then a else b.

(** Reading a property of a plain object; a missing property is
    [undefined]. *)
Fixpoint get_property (props : list (string * JsValue)) (key : string) : JsValue :=
  match props with
  | [] => JUndefined
  | (k, v) :: rest => if String.eqb k key then v else get_property rest key
  end.

(** A destructuring default, [{ x = d } = obj]: only [undefined] takes the
    default. *)
Definition with_default (v d : JsValue) : JsValue :=
  match v with
  | JUndefined => d
  | _ => v
  end.

(** A thrown error object. *)
Record JsError := { message : string; stack : string }.

(** What the host and the database driver supply and [server.js] does
    not fix: the text of a number and of a date (number formatting, the
    local time zone), the text the driver sends for a bound array or
    object, and the TypeError the host throws for an object that has no
    primitive form. *)
Class JsRuntime := {
  Number_toString : JsNumber -> string;
  Date_toString : Z -> string;
  Date_toISOString : Z -> string;
  pg_text : JsValue -> string;
  ToPrimitive_TypeError : JsError
}.

(** [Object.hasOwn(obj, key)] on a plain object. *)
Definition has_own_property (props : list (string * JsValue)) (key : string) : bool :=
  existsb (fun kv => String.eqb (fst kv) key) props.

Section Strings.
Context `{!JsRuntime}.

Fixpoint join (sep : string) (parts : list string) : string :=
  match parts with
  | [] => ""
  | [p] => p
  | p :: rest => p +:+ sep +:+ join sep rest
  end.

(** The string forms [Array.prototype.join] collects: of each item its
    conversion, and the empty string for [undefined] and [null]; none
    when a conversion throws. *)
Fixpoint element_texts (convert : JsValue -> option string) (items : list JsValue)
  : option (list string) :=
  match items with
  | [] => Some []
  | x :: rest =>
      match match x with
            | JUndefined | JNull => Some ""
            | _ => convert x
            end, element_texts convert rest with
      | Some s, Some ss => Some (s :: ss)
      | _, _ => None
      end
  end.

(** ECMAScript ToString, the conversion a template literal applies to
    each substituted value; [None] when it throws a TypeError. A plain
    object goes through [Object.prototype.toString] unless it has a
    property [toString] of its own: a parsed body holds no function, so
    such an object has no callable [toString], [valueOf] gives the object
    back, and the conversion throws. An array joins the string forms of
    its items. *)
Fixpoint ToString (v : JsValue) : option string :=
  match v with
  | JUndefined => Some "undefined"
  | JNull => Some "null"
  | JBool true => Some "true"
  | JBool false => Some "false"
  | JNum n => Some (Number_toString n)
  | JStr s => Some s
  | JArr items => option_map (join ",") (element_texts ToString items)
  | JObj props =>
      if has_own_property props "toString" then None else Some "[object Object]"
  end.
End Strings.

(** ** JSON text *)

(** A JSON document, the text [JSON.stringify] produces, kept as its syntax
    tree. A number literal is written with the number it denotes. *)
Inductive JsonText :=
| TNull
| TBool (b : bool)
| TNumber (n : JsNumber)
| TString (s : string)
| TArray (elements : list JsonText)
| TObject (members : list (string * JsonText)).

(** The members [JSON.stringify] writes for the properties of an object,
    given how it writes each value: a property without a JSON form is left
    out. *)
Fixpoint stringify_members (write : JsValue -> option JsonText)
  (props : list (string * JsValue)) : list (string * JsonText) :=
  match props with
  | [] => []
  | kv :: rest =>
      match write (snd kv) with
      | Some t => (fst kv, t) :: stringify_members write rest
      | None => stringify_members write rest
      end
  end.

(** The element [JSON.stringify] writes for an item of an array: an item
    without a JSON form is written [null]. *)
Definition stringify_element (write : JsValue -> option JsonText) (item : JsValue)
  : JsonText :=
  match write item with
  | Some t => t
  | None => TNull
  end.

(** [JSON.stringify(v)] on plain data. [undefined] has no JSON form: at the
    top level the result is [undefined] ([None]). NaN and the infinities
    are written [null]; negative zero is written [0]. *)
Fixpoint JSON_stringify (v : JsValue) : option JsonText :=
  match v with
  | JUndefined => None
  | JNull => Some TNull
  | JBool b => Some (TBool b)
  | JNum NumNaN | JNum (NumInfinity _) => Some TNull
  | JNum NumNegZero => Some (TNumber (NumDyadic 0 0))
  | JNum (NumDyadic m e) => Some (TNumber (NumDyadic m e))
  | JStr s => Some (TString s)
  | JArr items => Some (TArray (map (stringify_element JSON_stringify) items))
  | JObj props => Some (TObject (stringify_members JSON_stringify props))
  end.

(** [JSON.parse] of a document. *)
Fixpoint JSON_parse (t : JsonText) : JsValue :=
  match t with
  | TNull => JNull
  | TBool b => JBool b
  | TNumber n => JNum n
  | TString s => JStr s
  | TArray elements => JArr (map JSON_parse elements)
  | TObject members =>
      JObj (map (fun kt => (fst kt, JSON_parse (snd kt))) members)
  end.

(** ** The relational store *)

(** What a bound query parameter becomes in the store: the driver sends
    [null] and [undefined] as SQL NULL and any other value as it is bound
    (the text form the driver gives it is left out); the string made by
    [JSON.stringify] is stored as the document it spells. *)
Inductive SqlValue :=
| SqlNull
| SqlBound (v : JsValue)
| SqlJson (t : JsonText).

Definition prepareValue (v : JsValue) : SqlValue :=
  match v with
  | JUndefined | JNull => SqlNull
  | _ => SqlBound v
  end.

Definition prepareJson (s : option JsonText) : SqlValue :=
  match s with
  | None => SqlNull
  | Some t => SqlJson t
  end.

(** The text the driver sends for a bound value: a string as it is, a
    number or boolean through its [toString], an array or object in the
    form the driver builds. *)
Definition driver_text `{!JsRuntime} (v : JsValue) : string :=
  match v with
  | JStr s => s
  | JBool true => "true"
  | JBool false => "false"
  | JNum n => Number_toString n
  | JUndefined | JNull => ""
  | JArr _ | JObj _ => pg_text v
  end.

(** SQL equality, as a unique index on a text column applies it: bound
    values are equal when the texts sent for them are, and NULL equals
    nothing. The e-mail column, the one column compared, holds bound
    values only. *)
Definition sql_eqb `{!JsRuntime} (a b : SqlValue) : bool :=
  match a, b with
  | SqlBound x, SqlBound y => String.eqb (driver_text x) (driver_text y)
  | _, _ => false
  end.

(** Modelled from the spec: the table definitions are not among the source
    files. Each of the five tables auto-increments its identifier and
    defaults its creation timestamp to the insertion time; a row keeps the
    inserted column values in the order of the statement's column list. *)
Record Row := { id : Z; columns : list SqlValue; created_at : Z }.

Record Table := { rows : list Row; next_id : Z }.

Record Database := {
  contact_submissions : Table;
  appointment_requests : Table;
  quote_requests : Table;
  survey_submissions : Table;
  newsletter_subscriptions : Table
}.

Definition set_contact_submissions (t : Table) (d : Database) : Database :=
  {| contact_submissions := t;
     appointment_requests := appointment_requests d;
     quote_requests := quote_requests d;
     survey_submissions := survey_submissions d;
     newsletter_subscriptions := newsletter_subscriptions d |}.

Definition set_appointment_requests (t : Table) (d : Database) : Database :=
  {| contact_submissions := contact_submissions d;
     appointment_requests := t;
     quote_requests := quote_requests d;
     survey_submissions := survey_submissions d;
     newsletter_subscriptions := newsletter_subscriptions d |}.

Definition set_quote_requests (t : Table) (d : Database) : Database :=
  {| contact_submissions := contact_submissions d;
     appointment_requests := appointment_requests d;
     quote_requests := t;
     survey_submissions := survey_submissions d;
     newsletter_subscriptions := newsletter_subscriptions d |}.

Definition set_survey_submissions (t : Table) (d : Database) : Database :=
  {| contact_submissions := contact_submissions d;
     appointment_requests := appointment_requests d;
     quote_requests := quote_requests d;
     survey_submissions := t;
     newsletter_subscriptions := newsletter_subscriptions d |}.

Definition set_newsletter_subscriptions (t : Table) (d : Database) : Database :=
  {| contact_submissions := contact_submissions d;
     appointment_requests := appointment_requests d;
     quote_requests := quote_requests d;
     survey_submissions := survey_submissions d;
     newsletter_subscriptions := t |}.

(** [INSERT INTO t (...) VALUES ($1, ..., $n) RETURNING id, created_at]. *)
Definition insert_returning (params : list SqlValue) (now : Z) (t : Table)
  : Row * Table :=
  let r := {| id := next_id t; columns := params; created_at := now |} in
  (r, {| rows := rows t ++ [r]; next_id := next_id t + 1 |}).

(** The row of [newsletter_subscriptions] a new e-mail collides with. *)
Definition conflicts `{!JsRuntime} (email : SqlValue) (r : Row) : bool :=
  match columns r with
  | key :: _ => sql_eqb key email
  | [] => false
  end.

(** [INSERT INTO newsletter_subscriptions (email, name) VALUES ($1, $2)
     ON CONFLICT (email) DO UPDATE
     SET name = EXCLUDED.name, created_at = CURRENT_TIMESTAMP
     RETURNING id, created_at]. As for a serial column, the identifier
    sequence advances also when the row is already there. The e-mail
    column is text, and the row found holds the text of [email]: binding
    the new value in its place leaves the column's content as it was. *)
Definition upsert_returning `{!JsRuntime} (email name : SqlValue) (now : Z)
  (t : Table) : Row * Table :=
  match find (conflicts email) (rows t) with
  | Some old =>
      let r := {| id := id old; columns := [email; name]; created_at := now |} in
      (r, {| rows := map (fun x => if conflicts email x then r else x) (rows t);
             next_id := next_id t + 1 |})
  | None => insert_returning [email; name] now t
  end.

Definition INSERT_contact_submissions (params : list SqlValue) (now : Z)
  (d : Database) : Row * Database :=
  let '(r, t) := insert_returning params now (contact_submissions d) in
  (r, set_contact_submissions t d).

Definition INSERT_appointment_requests (params : list SqlValue) (now : Z)
  (d : Database) : Row * Database :=
  let '(r, t) := insert_returning params now (appointment_requests d) in
  (r, set_appointment_requests t d).

Definition INSERT_quote_requests (params : list SqlValue) (now : Z)
  (d : Database) : Row * Database :=
  let '(r, t) := insert_returning params now (quote_requests d) in
  (r, set_quote_requests t d).

Definition INSERT_survey_submissions (params : list SqlValue) (now : Z)
  (d : Database) : Row * Database :=
  let '(r, t) := insert_returning params now (survey_submissions d) in
  (r, set_survey_submissions t d).

Definition UPSERT_newsletter_subscriptions `{!JsRuntime} (email name : SqlValue)
  (now : Z) (d : Database) : Row * Database :=
  let '(r, t) := upsert_returning email name now (newsletter_subscriptions d) in
  (r, set_newsletter_subscriptions t d).

(** ** The world a request runs in *)

(** The argument [transporter.sendMail] is called with. *)
Record MailOptions := {
  from : JsValue;
  to : JsValue;
  subject : string;
  html : string
}.

(** A line written by [console.error]. *)
Inductive ConsoleLine :=
| LogError (label : string) (error : JsError)
| LogText (text : string).

(** The store, the two external services and what the process has written
    so far. [pool_fault] is [Some e] while the store rejects queries with
    [e] (unreachable, or a constraint violated); [smtp_fault] likewise for
    the mail transport. [sendMail_calls] lists every call of
    [transporter.sendMail], delivered or not. *)
Record World := {
  db : Database;
  now : Z;
  pool_fault : option JsError;
  smtp_fault : option JsError;
  sendMail_calls : list MailOptions;
  console : list ConsoleLine
}.

Definition set_db (d : Database) (w : World) : World :=
  {| db := d; now := now w; pool_fault := pool_fault w;
     smtp_fault := smtp_fault w; sendMail_calls := sendMail_calls w;
     console := console w |}.

Definition set_now (t : Z) (w : World) : World :=
  {| db := db w; now := t; pool_fault := pool_fault w;
     smtp_fault := smtp_fault w; sendMail_calls := sendMail_calls w;
     console := console w |}.

Definition record_sendMail (m : MailOptions) (w : World) : World :=
  {| db := db w; now := now w; pool_fault := pool_fault w;
     smtp_fault := smtp_fault w; sendMail_calls := sendMail_calls w ++ [m];
     console := console w |}.

Definition write_console (l : ConsoleLine) (w : World) : World :=
  {| db := db w; now := now w; pool_fault := pool_fault w;
     smtp_fault := smtp_fault w; sendMail_calls := sendMail_calls w;
     console := console w ++ [l] |}.

(** [process.env]. *)
Definition Env := gmap string string.

Definition getenv (env : Env) (name : string) : JsValue :=
  match env !! name with
  | Some s => JStr s
  | None => JUndefined
  end.

(** [a && b] on values. *)
Definition js_and (a b : JsValue) : JsValue := if ToBoolean a then b else a.

(** ** Async functions: state and exceptions *)

Inductive Completion (A : Type) :=
| Normal (a : A)
| Throw (e : JsError).
Arguments Normal {A} a.
Arguments Throw {A} e.

Definition Async (A : Type) : Type := World -> Completion A * World.

Definition ret {A} (a : A) : Async A := fun w => (Normal a, w).

(** [await c; k]: a rejection of [c] skips [k]; what [c] did to the world
    stays done. *)
Definition bind {A B} (c : Async A) (k : A -> Async B) : Async B :=
  fun w =>
    match c w with
    | (Normal a, w') => k a w'
    | (Throw e, w') => (Throw e, w')
    end.

(** [try { c } catch (error) { h }]. *)
Definition try_catch {A} (c : Async A) (h : JsError -> Async A) : Async A :=
  fun w =>
    match c w with
    | (Normal a, w') => (Normal a, w')
    | (Throw e, w') => h e w'
    end.

Declare Scope async_scope.
Delimit Scope async_scope with async.
Notation "'const' x ':=' 'await' c ;; k" := (bind c (fun x => k))
  (at level 10, x name, c at level 99, k at level 200) : async_scope.
Notation "'await' c ;; k" := (bind c (fun _ => k))
  (at level 10, c at level 99, k at level 200) : async_scope.
Local Open Scope async_scope.

(** [await pool.query(text, params)]. *)
Definition pool_query (statement : Z -> Database -> Row * Database) : Async Row :=
  fun w =>
    match pool_fault w with
    | Some e => (Throw e, w)
    | None =>
        let '(r, d) := statement (now w) (db w) in
        (Normal r, set_db d w)
    end.

(** [await transporter.sendMail(mailOptions)]. *)
Definition sendMail (m : MailOptions) : Async unit :=
  fun w =>
    match smtp_fault w with
    | Some e => (Throw e, record_sendMail m w)
    | None => (Normal tt, record_sendMail m w)
    end.

Definition console_error (label : string) (error : JsError) : Async unit :=
  fun w => (Normal tt, write_console (LogError label error) w).

Definition console_error_text (text : string) : Async unit :=
  fun w => (Normal tt, write_console (LogText text) w).

(** Evaluating an expression whose conversions to string may throw: a
    template literal with a value that has no string form throws the
    host's TypeError. *)
Definition evaluate `{!JsRuntime} {A} (value : option A) : Async A :=
  fun w =>
    match value with
    | Some a => (Normal a, w)
    | None => (Throw ToPrimitive_TypeError, w)
    end.

(** [new Date()], as milliseconds since the epoch. *)
Definition new_Date : Async Z := fun w => (Normal (now w), w).

(** ** Requests and responses *)

(** [req.body] as the body parser leaves it: a plain object. *)
Record Request := { body : list (string * JsValue) }.

Record Response := { status : Z; json : JsValue }.

(** [res.json(x)]. *)
Definition res_json (x : JsValue) : Response := {| status := 200; json := x |}.

(** [res.status(code).json(x)]. *)
Definition res_status_json (code : Z) (x : JsValue) : Response :=
  {| status := code; json := x |}.

Definition LF : string := String (ascii_of_nat 10) "".

(** ** The handlers of [server.js] *)

Section Handlers.
Context `{!JsRuntime}.
Variable env : Env.

(** [process.env.EMAIL_USER && process.env.EMAIL_PASSWORD]. *)
Definition email_configured : bool :=
  ToBoolean (js_and (getenv env "EMAIL_USER") (getenv env "EMAIL_PASSWORD")).

(** [GET /api/health]. *)
Definition health_handler (req : Request) : Async Response :=
  const date := await new_Date ;;
  ret (res_json (JObj [("status", JStr "healthy");
                       ("message", JStr "LifeLine Health Plans API is running");
                       ("timestamp", JStr (Date_toISOString date))])).

Definition contact_mailOptions
  (name email phone message submissionType : JsValue) (result : Row)
  : option MailOptions :=
  type_text ← ToString submissionType;
  name_text ← ToString name;
  email_text ← ToString (js_or email (JStr "Not provided"));
  phone_text ← ToString (js_or phone (JStr "Not provided"));
  message_text ← ToString message;
  Some
    {| from := getenv env "EMAIL_FROM";
       to := getenv env "EMAIL_USER";
       subject := "New Contact Form Submission - " +:+ type_text;
       html :=
         LF +:+
         "          <h2>New Contact Form Submission</h2>" +:+ LF +:+
         "          <p><strong>Name:</strong> " +:+ name_text +:+ "</p>" +:+ LF +:+
         "          <p><strong>Email:</strong> " +:+ email_text +:+ "</p>" +:+ LF +:+
         "          <p><strong>Phone:</strong> " +:+ phone_text +:+ "</p>" +:+ LF +:+
         "          <p><strong>Message:</strong> " +:+ message_text +:+ "</p>" +:+ LF +:+
         "          <p><strong>Type:</strong> " +:+ type_text +:+ "</p>" +:+ LF +:+
         "          <p><strong>Submitted at:</strong> " +:+
           Date_toString (created_at result) +:+ "</p>" +:+ LF +:+
         "        " |}.

(** [POST /api/contact]. *)
Definition contact_handler (req : Request) : Async Response :=
  try_catch
    (let name := get_property (body req) "name" in
     let email := get_property (body req) "email" in
     let phone := get_property (body req) "phone" in
     let message := get_property (body req) "message" in
     let submissionType :=
       with_default (get_property (body req) "submissionType") (JStr "general") in
     if negb (ToBoolean name) || (negb (ToBoolean email) && negb (ToBoolean phone))
     then
       ret (res_status_json 400
              (JObj [("error",
                      JStr "Name and either email or phone number are required")]))
     else
       const result := await
         pool_query (INSERT_contact_submissions
                       [prepareValue name; prepareValue email; prepareValue phone;
                        prepareValue message; prepareValue submissionType]) ;;
       await (if email_configured
              then
                const mailOptions := await
                  evaluate (contact_mailOptions name email phone message
                              submissionType result) ;;
                sendMail mailOptions
              else ret tt) ;;
       ret (res_json
              (JObj [("success", JBool true);
                     ("message",
                      JStr "Thank you for contacting us. We will reach out to you soon!");
                     ("submissionId", JNum (Number_of_Z (id result)))])))
    (fun error =>
       await console_error "Contact form error:" error ;;
       ret (res_status_json 500
              (JObj [("error", JStr "Failed to submit contact form")]))).

(** [POST /api/appointment]. *)
Definition appointment_handler (req : Request) : Async Response :=
  try_catch
    (let name := get_property (body req) "name" in
     let email := get_property (body req) "email" in
     let phone := get_property (body req) "phone" in
     let preferredDate := get_property (body req) "preferredDate" in
     let preferredTime := get_property (body req) "preferredTime" in
     let message := get_property (body req) "message" in
     if negb (ToBoolean name) || negb (ToBoolean email)
     then
       ret (res_status_json 400
              (JObj [("error",
                      JStr "Name and email are required for appointment requests")]))
     else
       const result := await
         pool_query (INSERT_appointment_requests
                       [prepareValue name; prepareValue email; prepareValue phone;
                        prepareValue preferredDate; prepareValue preferredTime;
                        prepareValue message]) ;;
       ret (res_json
              (JObj [("success", JBool true);
                     ("message",
                      JStr "Appointment request received. We will contact you to confirm.");
                     ("appointmentId", JNum (Number_of_Z (id result)));
                     ("calendlyUrl", getenv env "CALENDLY_URL")])))
    (fun error =>
       await console_error "Appointment request error:" error ;;
       ret (res_status_json 500
              (JObj [("error", JStr "Failed to submit appointment request")]))).

Definition quote_mailOptions
  (companyName contactName email phone numEmployees currentProvider
     interestedIn : JsValue) (result : Row) : option MailOptions :=
  subject_text ← ToString (js_or companyName (JStr "Individual"));
  company_text ← ToString (js_or companyName (JStr "N/A"));
  contact_text ← ToString contactName;
  email_text ← ToString email;
  phone_text ← ToString (js_or phone (JStr "Not provided"));
  employees_text ← ToString (js_or numEmployees (JStr "Not specified"));
  provider_text ← ToString (js_or currentProvider (JStr "None"));
  interest_text ← ToString (js_or interestedIn (JStr "General Information"));
  Some
    {| from := getenv env "EMAIL_FROM";
       to := getenv env "EMAIL_USER";
       subject := "New Group Insurance Quote Request - " +:+ subject_text;
       html :=
         LF +:+
         "          <h2>New Quote Request</h2>" +:+ LF +:+
         "          <p><strong>Company:</strong> " +:+ company_text +:+ "</p>" +:+ LF +:+
         "          <p><strong>Contact Name:</strong> " +:+ contact_text +:+ "</p>" +:+ LF +:+
         "          <p><strong>Email:</strong> " +:+ email_text +:+ "</p>" +:+ LF +:+
         "          <p><strong>Phone:</strong> " +:+ phone_text +:+ "</p>" +:+ LF +:+
         "          <p><strong>Number of Employees:</strong> " +:+
           employees_text +:+ "</p>" +:+ LF +:+
         "          <p><strong>Current Provider:</strong> " +:+
           provider_text +:+ "</p>" +:+ LF +:+
         "          <p><strong>Interested In:</strong> " +:+
           interest_text +:+ "</p>" +:+ LF +:+
         "          <p><strong>Submitted at:</strong> " +:+
           Date_toString (created_at result) +:+ "</p>" +:+ LF +:+
         "        " |}.

(** [POST /api/quote]. *)
Definition quote_handler (req : Request) : Async Response :=
  try_catch
    (let companyName := get_property (body req) "companyName" in
     let contactName := get_property (body req) "contactName" in
     let email := get_property (body req) "email" in
     let phone := get_property (body req) "phone" in
     let numEmployees := get_property (body req) "numEmployees" in
     let currentProvider := get_property (body req) "currentProvider" in
     let interestedIn := get_property (body req) "interestedIn" in
     if negb (ToBoolean contactName) || negb (ToBoolean email)
     then
       ret (res_status_json 400
              (JObj [("error",
                      JStr "Contact name and email are required for quote requests")]))
     else
       const result := await
         pool_query (INSERT_quote_requests
                       [prepareValue companyName; prepareValue contactName;
                        prepareValue email; prepareValue phone;
                        prepareValue numEmployees; prepareValue currentProvider;
                        prepareValue interestedIn]) ;;
       await (if email_configured
              then
                const mailOptions := await
                  evaluate (quote_mailOptions companyName contactName email phone
                              numEmployees currentProvider interestedIn result) ;;
                sendMail mailOptions
              else ret tt) ;;
       ret (res_json
              (JObj [("success", JBool true);
                     ("message",
                      JStr "Quote request received. We will prepare your personalized quote and contact you soon.");
                     ("quoteId", JNum (Number_of_Z (id result)))])))
    (fun error =>
       await console_error "Quote request error:" error ;;
       ret (res_status_json 500
              (JObj [("error", JStr "Failed to submit quote request")]))).

(** [POST /api/survey]. *)
Definition survey_handler (req : Request) : Async Response :=
  try_catch
    (let surveyType := get_property (body req) "surveyType" in
     let surveyData := get_property (body req) "surveyData" in
     let email := get_property (body req) "email" in
     const result := await
       pool_query (INSERT_survey_submissions
                     [prepareValue surveyType;
                      prepareJson (JSON_stringify surveyData);
                      prepareValue email]) ;;
     ret (res_json
            (JObj [("success", JBool true);
                   ("message",
                    JStr "Survey submitted successfully. We will review and reach out to guide your journey!");
                   ("surveyId", JNum (Number_of_Z (id result)))])))
    (fun error =>
       await console_error "Survey submission error:" error ;;
       ret (res_status_json 500 (JObj [("error", JStr "Failed to submit survey")]))).

(** [POST /api/newsletter]. *)
Definition newsletter_handler (req : Request) : Async Response :=
  try_catch
    (let email := get_property (body req) "email" in
     let name := get_property (body req) "name" in
     if negb (ToBoolean email)
     then
       ret (res_status_json 400
              (JObj [("error",
                      JStr "Email is required for newsletter subscription")]))
     else
       await pool_query (UPSERT_newsletter_subscriptions
                           (prepareValue email) (prepareValue name)) ;;
       ret (res_json
              (JObj [("success", JBool true);
                     ("message",
                      JStr "Successfully subscribed to our newsletter!")])))
    (fun error =>
       await console_error "Newsletter subscription error:" error ;;
       ret (res_status_json 500
              (JObj [("error", JStr "Failed to subscribe to newsletter")]))).

(** The error handling middleware, [app.use((err, req, res, next) => ...)]. *)
Definition error_middleware (err : JsError) (req : Request) : Async Response :=
  await console_error_text (stack err) ;;
  ret (res_status_json 500
         (JObj [("error", JStr "Something went wrong!");
                ("message",
                 if JsValue_eqb (getenv env "NODE_ENV") (JStr "development")
                 then JStr (message err)
                 else JUndefined)])).

(** The five submission routes, [app.post(path, handler)]. *)
Inductive Endpoint := Contact | Appointment | Quote | Survey | Newsletter.

Definition path (e : Endpoint) : string :=
  match e with
  | Contact => "/api/contact"
  | Appointment => "/api/appointment"
  | Quote => "/api/quote"
  | Survey => "/api/survey"
  | Newsletter => "/api/newsletter"
  end.

Definition post (e : Endpoint) : Request -> Async Response :=
  match e with
  | Contact => contact_handler
  | Appointment => appointment_handler
  | Quote => quote_handler
  | Survey => survey_handler
  | Newsletter => newsletter_handler
  end.
End Handlers.

(** ** What the properties are stated with *)

(** A field of the request body counts as present when the handlers'
    [!field] test lets it through. *)
Definition present (req : Request) (field : string) : bool :=
  ToBoolean (get_property (body req) field).

(** The required fields of each submission type. *)
Definition contact_required (req : Request) : bool :=
  present req "name" && (present req "email" || present req "phone").

Definition appointment_required (req : Request) : bool :=
  present req "name" && present req "email".

Definition quote_required (req : Request) : bool :=
  present req "contactName" && present req "email".

Definition newsletter_required (req : Request) : bool :=
  present req "email".

Definition required (e : Endpoint) (req : Request) : bool :=
  match e with
  | Contact => contact_required req
  | Appointment => appointment_required req
  | Quote => quote_required req
  | Survey => true
  | Newsletter => newsletter_required req
  end.

(** Reading a property of a response body. *)
Definition js_get (v : JsValue) (key : string) : JsValue :=
  match v with
  | JObj props => get_property props key
  | _ => JUndefined
  end.

(** A success response: status 200 and [success: true] in the body. *)
Definition is_success (c : Completion Response) : bool :=
  match c with
  | Normal r => (status r =? 200) && JsValue_eqb (js_get (json r) "success") (JBool true)
  | Throw _ => false
  end.

(** The body of an error response: an [error] property and nothing else. *)
Definition error_body (text : string) : JsValue := JObj [("error", JStr text)].

(** The generic failure message of each route and the label it logs
    under. *)
Definition failure_message (e : Endpoint) : string :=
  match e with
  | Contact => "Failed to submit contact form"
  | Appointment => "Failed to submit appointment request"
  | Quote => "Failed to submit quote request"
  | Survey => "Failed to submit survey"
  | Newsletter => "Failed to subscribe to newsletter"
  end.

Definition failure_label (e : Endpoint) : string :=
  match e with
  | Contact => "Contact form error:"
  | Appointment => "Appointment request error:"
  | Quote => "Quote request error:"
  | Survey => "Survey submission error:"
  | Newsletter => "Newsletter subscription error:"
  end.

(** The row an insert adds to a table, and the table afterwards. *)
Definition inserted (params : list SqlValue) (now : Z) (t : Table) : Row :=
  {| id := next_id t; columns := params; created_at := now |}.

Definition with_row (params : list SqlValue) (now : Z) (t : Table) : Table :=
  {| rows := rows t ++ [inserted params now t]; next_id := next_id t + 1 |}.

(** The column values of a submission, in the order of its statement. *)
Definition field (req : Request) (name : string) : SqlValue :=
  prepareValue (get_property (body req) name).

Definition contact_params (req : Request) : list SqlValue :=
  [field req "name"; field req "email"; field req "phone"; field req "message";
   prepareValue (with_default (get_property (body req) "submissionType")
                   (JStr "general"))].

Definition appointment_params (req : Request) : list SqlValue :=
  [field req "name"; field req "email"; field req "phone";
   field req "preferredDate"; field req "preferredTime"; field req "message"].

Definition quote_params (req : Request) : list SqlValue :=
  [field req "companyName"; field req "contactName"; field req "email";
   field req "phone"; field req "numEmployees"; field req "currentProvider";
   field req "interestedIn"].

Definition survey_params (req : Request) : list SqlValue :=
  [field req "surveyType";
   prepareJson (JSON_stringify (get_property (body req) "surveyData"));
   field req "email"].

(** The world once the submission's row is stored. *)
Definition contact_stored (req : Request) (w : World) : World :=
  set_db (set_contact_submissions
            (with_row (contact_params req) (now w) (contact_submissions (db w)))
            (db w)) w.

Definition appointment_stored (req : Request) (w : World) : World :=
  set_db (set_appointment_requests
            (with_row (appointment_params req) (now w) (appointment_requests (db w)))
            (db w)) w.

Definition quote_stored (req : Request) (w : World) : World :=
  set_db (set_quote_requests
            (with_row (quote_params req) (now w) (quote_requests (db w)))
            (db w)) w.

Definition survey_stored (req : Request) (w : World) : World :=
  set_db (set_survey_submissions
            (with_row (survey_params req) (now w) (survey_submissions (db w)))
            (db w)) w.

(** The world once a newsletter subscription is stored or refreshed. *)
Definition newsletter_stored `{!JsRuntime} (req : Request) (w : World) : World :=
  set_db (set_newsletter_subscriptions
            (snd (upsert_returning (field req "email") (field req "name") (now w)
                    (newsletter_subscriptions (db w))))
            (db w)) w.

(** The success responses. *)
Definition contact_success (w : World) : Response :=
  res_json
    (JObj [("success", JBool true);
           ("message",
            JStr "Thank you for contacting us. We will reach out to you soon!");
           ("submissionId",
            JNum (Number_of_Z (next_id (contact_submissions (db w)))))]).

Definition appointment_success (env : Env) (w : World) : Response :=
  res_json
    (JObj [("success", JBool true);
           ("message",
            JStr "Appointment request received. We will contact you to confirm.");
           ("appointmentId",
            JNum (Number_of_Z (next_id (appointment_requests (db w)))));
           ("calendlyUrl", getenv env "CALENDLY_URL")]).

Definition quote_success (w : World) : Response :=
  res_json
    (JObj [("success", JBool true);
           ("message",
            JStr "Quote request received. We will prepare your personalized quote and contact you soon.");
           ("quoteId", JNum (Number_of_Z (next_id (quote_requests (db w)))))]).

Definition survey_success (w : World) : Response :=
  res_json
    (JObj [("success", JBool true);
           ("message",
            JStr "Survey submitted successfully. We will review and reach out to guide your journey!");
           ("surveyId", JNum (Number_of_Z (next_id (survey_submissions (db w)))))]).

Definition newsletter_success : Response :=
  res_json
    (JObj [("success", JBool true);
           ("message", JStr "Successfully subscribed to our newsletter!")]).

(** The notification a contact or quote submission composes, if every
    value substituted has a string form. *)
Definition contact_mail `{!JsRuntime} (env : Env) (req : Request) (w : World)
  : option MailOptions :=
  contact_mailOptions env
    (get_property (body req) "name") (get_property (body req) "email")
    (get_property (body req) "phone") (get_property (body req) "message")
    (with_default (get_property (body req) "submissionType") (JStr "general"))
    (inserted (contact_params req) (now w) (contact_submissions (db w))).

Definition quote_mail `{!JsRuntime} (env : Env) (req : Request) (w : World)
  : option MailOptions :=
  quote_mailOptions env
    (get_property (body req) "companyName") (get_property (body req) "contactName")
    (get_property (body req) "email") (get_property (body req) "phone")
    (get_property (body req) "numEmployees")
    (get_property (body req) "currentProvider")
    (get_property (body req) "interestedIn")
    (inserted (quote_params req) (now w) (quote_requests (db w))).

(** A value has a string form unless an object with a [toString] property
    of its own is reached by converting it: the value itself, or an item
    of an array and of the arrays in it. *)
Fixpoint has_string_form (v : JsValue) : bool :=
  match v with
  | JObj props => negb (has_own_property props "toString")
  | JArr items => forallb has_string_form items
  | _ => true
  end.

(** The values each notification substitutes into its templates. *)
Definition contact_substitutions (req : Request) : list JsValue :=
  [with_default (get_property (body req) "submissionType") (JStr "general");
   get_property (body req) "name";
   js_or (get_property (body req) "email") (JStr "Not provided");
   js_or (get_property (body req) "phone") (JStr "Not provided");
   get_property (body req) "message"].

Definition quote_substitutions (req : Request) : list JsValue :=
  [js_or (get_property (body req) "companyName") (JStr "Individual");
   js_or (get_property (body req) "companyName") (JStr "N/A");
   get_property (body req) "contactName";
   get_property (body req) "email";
   js_or (get_property (body req) "phone") (JStr "Not provided");
   js_or (get_property (body req) "numEmployees") (JStr "Not specified");
   js_or (get_property (body req) "currentProvider") (JStr "None");
   js_or (get_property (body req) "interestedIn") (JStr "General Information")].

(** The rows of the newsletter table stored under an e-mail address. *)
Definition subscriptions_of `{!JsRuntime} (email : JsValue) (w : World)
  : list Row :=
  List.filter (conflicts (prepareValue email))
    (rows (newsletter_subscriptions (db w))).

(** The unique index on the e-mail column that [ON CONFLICT (email)] relies
    on: no two rows of the table collide with the same address. *)
Definition unique_emails `{!JsRuntime} (t : Table) : Prop :=
  forall key, (length (List.filter (conflicts key) (rows t)) <= 1)%nat.

(** The values [JSON.stringify] writes down exactly: no [undefined], no NaN
    or infinity, no negative zero, at any depth. *)
Fixpoint json_exact (v : JsValue) : bool :=
  match v with
  | JUndefined => false
  | JNull | JBool _ | JStr _ => true
  | JNum n =>
      match n with
      | NumDyadic _ _ => true
      | _ => false
      end
  | JArr items => forallb json_exact items
  | JObj props => forallb (fun kv => json_exact (snd kv)) props
  end.

(** Modelled from the spec: no route of [server.js] reads a survey back.
    "The stored value, when read back and deserialized": the driver hands
    SQL NULL back as [null], and the stored document is parsed. *)
Definition read_back (stored : SqlValue) : JsValue :=
  match stored with
  | SqlNull => JNull
  | SqlBound v => v
  | SqlJson t => JSON_parse t
  end.

(** The [survey_data] column of the row a survey submission stores. *)
Definition stored_survey_data (req : Request) : SqlValue :=
  nth 1 (survey_params req) SqlNull.

(** HTML escaping as the spec's wording has it, for comparison with what
    the templates do: the five markup characters become entities. *)
Fixpoint html_escape (s : string) : string :=
  match s with
  | EmptyString => ""
  | String c rest =>
      (if Ascii.eqb c "&" then "&amp;"
       else if Ascii.eqb c "<" then "&lt;"
       else if Ascii.eqb c ">" then "&gt;"
       else if Ascii.eqb c (ascii_of_nat 34) then "&quot;"
       else if Ascii.eqb c "'" then "&#39;"
       else String c "") +:+ html_escape rest
  end.

(** The layout of the contact notification with every substituted request
    value passed through [render]; there is no mail when a value cannot
    be rendered. *)
Definition contact_layout `{!JsRuntime} (render : JsValue -> option string)
  (env : Env) (req : Request) (w : World) : option MailOptions :=
  let name := get_property (body req) "name" in
  let email := get_property (body req) "email" in
  let phone := get_property (body req) "phone" in
  let message := get_property (body req) "message" in
  let submissionType :=
    with_default (get_property (body req) "submissionType") (JStr "general") in
  type_text ← render submissionType;
  name_text ← render name;
  email_text ← render (js_or email (JStr "Not provided"));
  phone_text ← render (js_or phone (JStr "Not provided"));
  message_text ← render message;
  Some
    {| from := getenv env "EMAIL_FROM";
       to := getenv env "EMAIL_USER";
       subject := "New Contact Form Submission - " +:+ type_text;
       html :=
         LF +:+
         "          <h2>New Contact Form Submission</h2>" +:+ LF +:+
         "          <p><strong>Name:</strong> " +:+ name_text +:+ "</p>" +:+ LF +:+
         "          <p><strong>Email:</strong> " +:+ email_text +:+ "</p>" +:+ LF +:+
         "          <p><strong>Phone:</strong> " +:+ phone_text +:+ "</p>" +:+ LF +:+
         "          <p><strong>Message:</strong> " +:+ message_text +:+ "</p>" +:+ LF +:+
         "          <p><strong>Type:</strong> " +:+ type_text +:+ "</p>" +:+ LF +:+
         "          <p><strong>Submitted at:</strong> " +:+
           Date_toString (now w) +:+ "</p>" +:+ LF +:+
         "        " |}.

(** The layout of the quote notification, likewise. *)
Definition quote_layout `{!JsRuntime} (render : JsValue -> option string)
  (env : Env) (req : Request) (w : World) : option MailOptions :=
  let companyName := get_property (body req) "companyName" in
  let contactName := get_property (body req) "contactName" in
  let email := get_property (body req) "email" in
  let phone := get_property (body req) "phone" in
  let numEmployees := get_property (body req) "numEmployees" in
  let currentProvider := get_property (body req) "currentProvider" in
  let interestedIn := get_property (body req) "interestedIn" in
  subject_text ← render (js_or companyName (JStr "Individual"));
  company_text ← render (js_or companyName (JStr "N/A"));
  contact_text ← render contactName;
  email_text ← render email;
  phone_text ← render (js_or phone (JStr "Not provided"));
  employees_text ← render (js_or numEmployees (JStr "Not specified"));
  provider_text ← render (js_or currentProvider (JStr "None"));
  interest_text ← render (js_or interestedIn (JStr "General Information"));
  Some
    {| from := getenv env "EMAIL_FROM";
       to := getenv env "EMAIL_USER";
       subject := "New Group Insurance Quote Request - " +:+ subject_text;
       html :=
         LF +:+
         "          <h2>New Quote Request</h2>" +:+ LF +:+
         "          <p><strong>Company:</strong> " +:+ company_text +:+ "</p>" +:+ LF +:+
         "          <p><strong>Contact Name:</strong> " +:+ contact_text +:+ "</p>" +:+ LF +:+
         "          <p><strong>Email:</strong> " +:+ email_text +:+ "</p>" +:+ LF +:+
         "          <p><strong>Phone:</strong> " +:+ phone_text +:+ "</p>" +:+ LF +:+
         "          <p><strong>Number of Employees:</strong> " +:+
           employees_text +:+ "</p>" +:+ LF +:+
         "          <p><strong>Current Provider:</strong> " +:+
           provider_text +:+ "</p>" +:+ LF +:+
         "          <p><strong>Interested In:</strong> " +:+
           interest_text +:+ "</p>" +:+ LF +:+
         "          <p><strong>Submitted at:</strong> " +:+
           Date_toString (now w) +:+ "</p>" +:+ LF +:+
         "        " |}.

(** Escaped substitution: the string form of a value, HTML-escaped. *)
Definition escaped `{!JsRuntime} (v : JsValue) : option string :=
  html_escape <$> ToString v.

(** A stand-in host for running the handlers on concrete requests: each
    built-in conversion answers with a fixed marker. *)
Definition marker_runtime : JsRuntime :=
  {| Number_toString := fun _ => "#number";
     Date_toString := fun _ => "#date";
     Date_toISOString := fun _ => "#iso-date";
     pg_text := fun _ => "#text";
     ToPrimitive_TypeError :=
       {| message := "Cannot convert object to primitive value";
          stack := "TypeError: Cannot convert object to primitive value" |} |}.

Definition empty_table : Table := {| rows := []; next_id := 1 |}.

Definition empty_database : Database :=
  {| contact_submissions := empty_table;
     appointment_requests := empty_table;
     quote_requests := empty_table;
     survey_submissions := empty_table;
     newsletter_subscriptions := empty_table |}.

(** A freshly started server with both services up. *)
Definition fresh_world : World :=
  {| db := empty_database; now := 1000; pool_fault := None; smtp_fault := None;
     sendMail_calls := []; console := [] |}.

Definition ECONNREFUSED : JsError :=
  {| message := "connect ECONNREFUSED 127.0.0.1:5432";
     stack := "Error: connect ECONNREFUSED 127.0.0.1:5432" |}.

Definition ETIMEDOUT : JsError :=
  {| message := "Connection timeout"; stack := "Error: Connection timeout" |}.

(** The same server with the store unreachable, and with the mail
    transport failing. *)
Definition store_down : World :=
  {| db := empty_database; now := 1000; pool_fault := Some ECONNREFUSED;
     smtp_fault := None; sendMail_calls := []; console := [] |}.

Definition smtp_down : World :=
  {| db := empty_database; now := 1000; pool_fault := None;
     smtp_fault := Some ETIMEDOUT; sendMail_calls := []; console := [] |}.

(** An environment with the mail account configured, and one without. *)
Definition mail_env : Env :=
  <["EMAIL_USER" := "staff@llplans.com"]> (<["EMAIL_PASSWORD" := "secret"]> ∅).

Definition bare_env : Env := ∅.

(** Sample requests. *)
Definition ann_contact : Request :=
  {| body := [("name", JStr "Ann"); ("email", JStr "a@b.com")] |}.

Definition anonymous_contact : Request :=
  {| body := [("message", JStr "hello")] |}.

Definition ann_appointment : Request :=
  {| body := [("name", JStr "Ann"); ("email", JStr "a@b.com")] |}.

Definition ann_quote : Request :=
  {| body := [("contactName", JStr "Ann"); ("email", JStr "a@b.com")] |}.

Definition ann_newsletter : Request :=
  {| body := [("email", JStr "a@b.com"); ("name", JStr "Ann")] |}.

Definition annie_newsletter : Request :=
  {| body := [("email", JStr "a@b.com"); ("name", JStr "Annie")] |}.

Definition markup_contact : Request :=
  {| body := [("name", JStr "<script>alert(1)</script>");
              ("email", JStr "a@b.com")] |}.

Definition sized_survey : Request :=
  {| body := [("surveyType", JStr "medicare");
              ("surveyData",
               JObj [("age", JNum (Number_of_Z 67));
                     ("plans", JArr [JStr "A"; JStr "B"]);
                     ("smoker", JBool false)])] |}.

Definition overflowing_survey : Request :=
  {| body := [("surveyData", JObj [("income", JNum (NumInfinity false))])] |}.

(** ** The rest of [server.js] *)

(** [const PORT = process.env.PORT || 5000]. *)
Definition PORT (env : Env) : JsValue :=
  js_or (getenv env "PORT") (JNum (Number_of_Z 5000)).

(** The [origin] option given to [cors]: [process.env.CORS_ORIGIN || '*']. *)
Definition cors_origin (env : Env) : JsValue :=
  js_or (getenv env "CORS_ORIGIN") (JStr "*").


(** ** The pipeline as a whole *)

(** The table each route writes to. *)
Definition table_of (e : Endpoint) (d : Database) : Table :=
  match e with
  | Contact => contact_submissions d
  | Appointment => appointment_requests d
  | Quote => quote_requests d
  | Survey => survey_submissions d
  | Newsletter => newsletter_subscriptions d
  end.

Definition Endpoint_eqb (a b : Endpoint) : bool :=
  match a, b with
  | Contact, Contact | Appointment, Appointment | Quote, Quote
  | Survey, Survey | Newsletter, Newsletter => true
  | _, _ => false
  end.

(** The routes whose handler holds a [sendMail] call. *)
Definition notifies (e : Endpoint) : bool :=
  match e with
  | Contact | Quote => true
  | Appointment | Survey | Newsletter => false
  end.

(** The status of a response, if the handler gave one. *)
Definition status_of (c : Completion Response) : option Z :=
  match c with
  | Normal r => Some (status r)
  | Throw _ => None
  end.

(** The message each route gives for missing fields; the survey route
    has none. *)
Definition rejection_message (e : Endpoint) : string :=
  match e with
  | Contact => "Name and either email or phone number are required"
  | Appointment => "Name and email are required for appointment requests"
  | Quote => "Contact name and email are required for quote requests"
  | Survey => ""
  | Newsletter => "Email is required for newsletter subscription"
  end.

(** The column values a route binds. *)
Definition params (e : Endpoint) (req : Request) : list SqlValue :=
  match e with
  | Contact => contact_params req
  | Appointment => appointment_params req
  | Quote => quote_params req
  | Survey => survey_params req
  | Newsletter => [field req "email"; field req "name"]
  end.

(** The world once a route's statement has run. *)
Definition stored `{!JsRuntime} (e : Endpoint) (req : Request) (w : World)
  : World :=
  match e with
  | Contact => contact_stored req w
  | Appointment => appointment_stored req w
  | Quote => quote_stored req w
  | Survey => survey_stored req w
  | Newsletter => newsletter_stored req w
  end.

Definition success_response (env : Env) (e : Endpoint) (w : World) : Response :=
  match e with
  | Contact => contact_success w
  | Appointment => appointment_success env w
  | Quote => quote_success w
  | Survey => survey_success w
  | Newsletter => newsletter_success
  end.

(** A mail is due for a stored submission: the route holds a [sendMail]
    call and the account is configured. *)
Definition mail_due (env : Env) (e : Endpoint) : bool :=
  notifies e && email_configured env.

(** The mail a route composes for a stored submission; none when a
    substituted value has no string form. *)
Definition notification `{!JsRuntime} (env : Env) (e : Endpoint) (req : Request)
  (w : World) : option MailOptions :=
  match e with
  | Contact => contact_mail env req w
  | Quote => quote_mail env req w
  | Appointment | Survey | Newsletter => None
  end.

(** The error that makes a request fail, if one does: the store's, or
    else, where a mail is due, the TypeError of composing it or the mail
    transport's error. *)
Definition failure `{!JsRuntime} (env : Env) (e : Endpoint) (req : Request)
  (w : World) : option JsError :=
  match pool_fault w with
  | Some err => Some err
  | None =>
      if mail_due env e
      then match notification env e req w with
           | Some _ => smtp_fault w
           | None => Some ToPrimitive_TypeError
           end
      else None
  end.

(** The name of the identifier in each route's success response. *)
Definition id_field (e : Endpoint) : option string :=
  match e with
  | Contact => Some "submissionId"
  | Appointment => Some "appointmentId"
  | Quote => Some "quoteId"
  | Survey => Some "surveyId"
  | Newsletter => None
  end.

(** What the server and its surroundings can do to the world: a handler
    or the error middleware runs, or the clock and the two services change
    state from outside. *)
Inductive step `{!JsRuntime} (env : Env) : World -> World -> Prop :=
| step_post e req w : step env w (snd (post env e req w))
| step_error err req w : step env w (snd (error_middleware env err req w))
| step_outside w t store mail :
    step env w
      {| db := db w; now := t; pool_fault := store; smtp_fault := mail;
         sendMail_calls := sendMail_calls w; console := console w |}.

Inductive reachable `{!JsRuntime} (env : Env) (start : World) : World -> Prop :=
| reachable_start : reachable env start start
| reachable_step w w' :
    reachable env start w -> step env w w' -> reachable env start w'.

(** Identifiers handed out so far are distinct and below the next one. *)
Definition fresh_ids (t : Table) : Prop :=
  Forall (fun r => id r < next_id t) (rows t) /\ NoDup (map id (rows t)).

(** The state of the store that the sequences and the unique index
    guarantee. *)
Definition wellformed `{!JsRuntime} (d : Database) : Prop :=
  (forall e, fresh_ids (table_of e d))
  /\ unique_emails (newsletter_subscriptions d).

(** An address has a row in the newsletter table. *)
Definition subscribed `{!JsRuntime} (key : SqlValue) (t : Table) : bool :=
  existsb (conflicts key) (rows t).




(** The row the first sample subscription stores, and the world after
    it. *)
Definition ann_row : Row :=
  {| id := 1;
     columns := [SqlBound (JStr "a@b.com"); SqlBound (JStr "Ann")];
     created_at := 1000 |}.

Definition ann_subscribed : World :=
  snd (newsletter_handler (H := marker_runtime) ann_newsletter fresh_world).

(** The same world with the store unreachable. *)
Definition ann_subscribed_store_down : World :=
  {| db := db ann_subscribed; now := 2000; pool_fault := Some ECONNREFUSED;
     smtp_fault := None; sendMail_calls := []; console := [] |}.

(** Requests whose name has no string form: an object with a [toString]
    property of its own. *)
Definition unprintable_contact : Request :=
  {| body := [("name", JObj [("toString", JNum (Number_of_Z 1))]);
              ("email", JStr "a@b.com")] |}.

Definition unprintable_quote : Request :=
  {| body := [("contactName", JObj [("toString", JNum (Number_of_Z 1))]);
              ("email", JStr "a@b.com")] |}.

(** Subscriptions under the number 1 and under the string of that
    digit. *)
Definition number_newsletter : Request :=
  {| body := [("email", JNum (Number_of_Z 1)); ("name", JStr "One")] |}.

Definition digit_newsletter : Request :=
  {| body := [("email", JStr "1"); ("name", JStr "Uno")] |}.


(** ** The course of each handler *)

(** Unfolds a handler down to the tests it makes on the request and on the
    world. *)
Ltac run_handler :=
  unfold contact_handler, appointment_handler, quote_handler, survey_handler,
    newsletter_handler, try_catch, bind, pool_query, sendMail, console_error, ret;
  unfold contact_required, appointment_required, quote_required,
    newsletter_required, present in *.

Ltac case_field b k :=
  let E := fresh "Hfield" in
  destruct (ToBoolean (get_property b k)) eqn:E.

Section Intake.
Context `{!JsRuntime}.
Variable env : Env.

Lemma present_string req name s :
  get_property (body req) name = JStr s ->
  present req name = true <-> s <> "".
Proof.
  intros Hs. unfold present. rewrite Hs. simpl.
  destruct (String.eqb_spec s ""); simpl; split; intros; congruence.
Qed.

(** [ToString] gives a string exactly for the values that have a string
    form. *)
Lemma ToString_Some v : has_string_form v = true -> exists s, ToString v = Some s.
Proof.
  induction v as [| |[]|n|s|items IH|props IH] using JsValue_nested_ind; simpl;
    intros Hform; eauto.
  - assert (exists ss, element_texts ToString items = Some ss) as [ss ->];
      [|simpl; eauto].
    induction IH as [|x l Hx _ IHl]; [simpl; eauto|].
    simpl in Hform. apply andb_prop in Hform as [Hhead Htail].
    destruct (IHl Htail) as [ss Hss]. destruct (Hx Hhead) as [s Hs].
    simpl. rewrite Hss. destruct x; rewrite ?Hs; eauto.
  - destruct (has_own_property props "toString"); [discriminate | eauto].
Qed.

Lemma ToString_None v : has_string_form v = false -> ToString v = None.
Proof.
  induction v as [| |[]|n|s|items IH|props IH] using JsValue_nested_ind; simpl;
    intros Hform; try discriminate.
  - assert (element_texts ToString items = None) as ->; [|reflexivity].
    induction IH as [|x l Hx _ IHl]; [discriminate|].
    simpl in Hform. apply andb_false_iff in Hform as [Hhead|Htail].
    + simpl. rewrite (Hx Hhead). destruct x; try discriminate Hhead; reflexivity.
    + simpl. rewrite (IHl Htail).
      destruct x; try reflexivity; destruct (ToString _); reflexivity.
  - destruct (has_own_property props "toString"); [reflexivity | discriminate].
Qed.

Lemma has_string_form_ToString v :
  has_string_form v = match ToString v with Some _ => true | None => false end.
Proof.
  destruct (has_string_form v) eqn:Hform.
  - apply ToString_Some in Hform as [s ->]. reflexivity.
  - apply ToString_None in Hform as ->. reflexivity.
Qed.

(** The contact notification can be composed exactly when each value it
    substitutes has a string form. *)
Lemma contact_mail_composes req w :
  contact_mail env req w <> None <->
  forallb has_string_form (contact_substitutions req) = true.
Proof.
  unfold contact_mail, contact_mailOptions, contact_substitutions. simpl.
  rewrite !has_string_form_ToString.
  repeat (match goal with
          | |- context [ToString ?v] => destruct (ToString v)
          end; simpl).
  all: split; [intros Hmail | intros Hform Hmail];
    first [ reflexivity | discriminate Hform | discriminate Hmail
          | exfalso; apply Hmail; reflexivity ].
Qed.

Lemma quote_mail_composes req w :
  quote_mail env req w <> None <->
  forallb has_string_form (quote_substitutions req) = true.
Proof.
  unfold quote_mail, quote_mailOptions, quote_substitutions. simpl.
  rewrite !has_string_form_ToString.
  repeat (match goal with
          | |- context [ToString ?v] => destruct (ToString v)
          end; simpl).
  all: split; [intros Hmail | intros Hform Hmail];
    first [ reflexivity | discriminate Hform | discriminate Hmail
          | exfalso; apply Hmail; reflexivity ].
Qed.

(** [POST /api/contact], branch by branch. *)
Lemma contact_handler_course req w :
  contact_handler env req w =
    if contact_required req then
      match pool_fault w with
      | Some e =>
          (Normal (res_status_json 500 (error_body (failure_message Contact))),
           write_console (LogError (failure_label Contact) e) w)
      | None =>
          if email_configured env then
            match contact_mail env req w with
            | Some m =>
                match smtp_fault w with
                | Some e =>
                    (Normal (res_status_json 500
                               (error_body (failure_message Contact))),
                     write_console (LogError (failure_label Contact) e)
                       (record_sendMail m (contact_stored req w)))
                | None =>
                    (Normal (contact_success w),
                     record_sendMail m (contact_stored req w))
                end
            | None =>
                (Normal (res_status_json 500 (error_body (failure_message Contact))),
                 write_console (LogError (failure_label Contact) ToPrimitive_TypeError)
                   (contact_stored req w))
            end
          else (Normal (contact_success w), contact_stored req w)
      end
    else
      (Normal (res_status_json 400
                 (error_body "Name and either email or phone number are required")),
       w).
Proof.
  run_handler.
  case_field (body req) "name"; case_field (body req) "email";
    case_field (body req) "phone"; simpl; try reflexivity;
    destruct (pool_fault w); try reflexivity;
    destruct (email_configured env); simpl; try reflexivity;
    unfold contact_mail, evaluate; simpl;
    destruct (contact_mailOptions _ _ _ _ _ _ _); simpl; try reflexivity;
    destruct (smtp_fault w); reflexivity.
Qed.
(** [POST /api/appointment], branch by branch. *)
Lemma appointment_handler_course req w :
  appointment_handler env req w =
    if appointment_required req then
      match pool_fault w with
      | Some e =>
          (Normal (res_status_json 500 (error_body (failure_message Appointment))),
           write_console (LogError (failure_label Appointment) e) w)
      | None => (Normal (appointment_success env w), appointment_stored req w)
      end
    else
      (Normal (res_status_json 400
                 (error_body "Name and email are required for appointment requests")),
       w).
Proof.
  run_handler.
  case_field (body req) "name"; case_field (body req) "email"; simpl;
    try reflexivity; destruct (pool_fault w); reflexivity.
Qed.

(** [POST /api/quote], branch by branch. *)
Lemma quote_handler_course req w :
  quote_handler env req w =
    if quote_required req then
      match pool_fault w with
      | Some e =>
          (Normal (res_status_json 500 (error_body (failure_message Quote))),
           write_console (LogError (failure_label Quote) e) w)
      | None =>
          if email_configured env then
            match quote_mail env req w with
            | Some m =>
                match smtp_fault w with
                | Some e =>
                    (Normal (res_status_json 500 (error_body (failure_message Quote))),
                     write_console (LogError (failure_label Quote) e)
                       (record_sendMail m (quote_stored req w)))
                | None =>
                    (Normal (quote_success w),
                     record_sendMail m (quote_stored req w))
                end
            | None =>
                (Normal (res_status_json 500 (error_body (failure_message Quote))),
                 write_console (LogError (failure_label Quote) ToPrimitive_TypeError)
                   (quote_stored req w))
            end
          else (Normal (quote_success w), quote_stored req w)
      end
    else
      (Normal (res_status_json 400
                 (error_body "Contact name and email are required for quote requests")),
       w).
Proof.
  run_handler.
  case_field (body req) "contactName"; case_field (body req) "email"; simpl;
    try reflexivity;
    destruct (pool_fault w); try reflexivity;
    destruct (email_configured env); simpl; try reflexivity;
    unfold quote_mail, evaluate; simpl;
    destruct (quote_mailOptions _ _ _ _ _ _ _ _ _); simpl; try reflexivity;
    destruct (smtp_fault w); reflexivity.
Qed.

(** [POST /api/survey], branch by branch: nothing is validated. *)
Lemma survey_handler_course req w :
  survey_handler req w =
    match pool_fault w with
    | Some e =>
        (Normal (res_status_json 500 (error_body (failure_message Survey))),
         write_console (LogError (failure_label Survey) e) w)
    | None => (Normal (survey_success w), survey_stored req w)
    end.
Proof. run_handler. destruct (pool_fault w); reflexivity. Qed.

(** [POST /api/newsletter], branch by branch. *)
Lemma newsletter_handler_course req w :
  newsletter_handler req w =
    if newsletter_required req then
      match pool_fault w with
      | Some e =>
          (Normal (res_status_json 500 (error_body (failure_message Newsletter))),
           write_console (LogError (failure_label Newsletter) e) w)
      | None => (Normal newsletter_success, newsletter_stored req w)
      end
    else
      (Normal (res_status_json 400
                 (error_body "Email is required for newsletter subscription")),
       w).
Proof.
  run_handler. case_field (body req) "email"; simpl; try reflexivity.
  destruct (pool_fault w); try reflexivity.
  unfold UPSERT_newsletter_subscriptions, newsletter_stored, field.
  destruct (upsert_returning _ _ _ _); reflexivity.
Qed.
End Intake.
(** ** Properties of the intake pipeline *)

Section Pipeline.
Context `{!JsRuntime}.
Variable env : Env.

(** The mail account counts as configured exactly when both variables
    are set to non-empty strings. *)
Lemma email_configured_spec :
  email_configured env = true <->
  exists user password,
    env !! "EMAIL_USER" = Some user /\ user <> "" /\
    env !! "EMAIL_PASSWORD" = Some password /\ password <> "".
Proof.
  unfold email_configured, js_and, getenv.
  destruct (env !! "EMAIL_USER") as [u|], (env !! "EMAIL_PASSWORD") as [p|];
    cbn [ToBoolean];
    repeat match goal with
      | |- context [String.eqb ?s ""] => destruct (String.eqb_spec s ""); cbn
      end;
    (split;
     [ intros Hc; try discriminate Hc; try congruence; eauto 10
     | intros (u' & p' & Hu & Hnu & Hp & Hnp); simplify_eq; congruence ]).
Qed.

(** When the store rejects a query that passed validation, the route's
    catch block logs the error and answers with its fixed message. *)
Lemma post_store_failure e req w err :
  required e req = true ->
  pool_fault w = Some err ->
  post env e req w =
    (Normal (res_status_json 500 (error_body (failure_message e))),
     write_console (LogError (failure_label e) err) w).
Proof.
  intros Hreq Hpool. destruct e; simpl in *.
  - rewrite contact_handler_course, Hreq, Hpool. reflexivity.
  - rewrite appointment_handler_course, Hreq, Hpool. reflexivity.
  - rewrite quote_handler_course, Hreq, Hpool. reflexivity.
  - rewrite survey_handler_course, Hpool. reflexivity.
  - rewrite newsletter_handler_course, Hreq, Hpool. reflexivity.
Qed.

(** Outside development mode the error middleware leaves the error's
    message out of its answer. *)
Lemma error_middleware_hides_message err req w :
  env !! "NODE_ENV" <> Some "development" ->
  (error_middleware env err req w).1 =
    Normal (res_status_json 500
              (JObj [("error", JStr "Something went wrong!");
                     ("message", JUndefined)])).
Proof.
  intros Hmode. unfold error_middleware, bind, console_error_text, ret, getenv.
  simpl. destruct (env !! "NODE_ENV") as [mode|]; simpl; [|reflexivity].
  destruct (String.eqb_spec mode "development"); [congruence | reflexivity].
Qed.

(** A success answer of the contact route means the required fields were
    there. *)
Lemma contact_success_required req w :
  is_success (contact_handler env req w).1 = true -> contact_required req = true.
Proof.
  rewrite contact_handler_course.
  destruct (contact_required req); [reflexivity|]. simpl. discriminate.
Qed.

Lemma appointment_success_required req w :
  is_success (appointment_handler env req w).1 = true ->
  appointment_required req = true.
Proof.
  rewrite appointment_handler_course.
  destruct (appointment_required req); [reflexivity|]. simpl. discriminate.
Qed.

Lemma quote_success_required req w :
  is_success (quote_handler env req w).1 = true -> quote_required req = true.
Proof.
  rewrite quote_handler_course.
  destruct (quote_required req); [reflexivity|]. simpl. discriminate.
Qed.

(** With every substituted value in string form, the mail is composed. *)
Lemma contact_mail_Some req w :
  forallb has_string_form (contact_substitutions req) = true ->
  exists m, contact_mail env req w = Some m.
Proof.
  intros Hform. apply (contact_mail_composes env req w) in Hform.
  destruct (contact_mail env req w) as [m|]; [eauto | contradiction].
Qed.

Lemma quote_mail_Some req w :
  forallb has_string_form (quote_substitutions req) = true ->
  exists m, quote_mail env req w = Some m.
Proof.
  intros Hform. apply (quote_mail_composes env req w) in Hform.
  destruct (quote_mail env req w) as [m|]; [eauto | contradiction].
Qed.

(** C1, as amended. For every request to POST /api/contact during which
    the insert does not raise and, where the mail account is configured,
    the notification can be composed (every substituted value has a string
    form) and is sent without error, the response is a success (status
    200 with fields success, message, submissionId) if and only if name is
    present and at least one of email and phone is, present meaning truthy:
    for a string, non-empty. Whatever the store and the mail transport do,
    a request that lacks them gets status 400 with the message 'Name and
    either email or phone number are required' and leaves the world, so
    the store, untouched. *)
Theorem contact_success_iff_required req w :
  (pool_fault w = None ->
   (email_configured env = true ->
    forallb has_string_form (contact_substitutions req) = true
    /\ smtp_fault w = None) ->
   (is_success (contact_handler env req w).1 = true <->
    contact_required req = true)
   /\ (contact_required req = true ->
       (contact_handler env req w).1 =
         Normal
           {| status := 200;
              json :=
                JObj [("success", JBool true);
                      ("message",
                       JStr "Thank you for contacting us. We will reach out to you soon!");
                      ("submissionId",
                       JNum (Number_of_Z (next_id (contact_submissions (db w)))))] |}))
  /\ (contact_required req = false ->
      (contact_handler env req w).1 =
        Normal
          {| status := 400;
             json :=
               JObj [("error",
                      JStr "Name and either email or phone number are required")] |}
      /\ (contact_handler env req w).2 = w).
Proof.
  split.
  - intros Hpool Hmail.
    assert (contact_required req = true ->
            (contact_handler env req w).1 = Normal (contact_success w)) as Hok.
    { intros Hreq. rewrite contact_handler_course, Hreq, Hpool.
      destruct (email_configured env); [|reflexivity].
      destruct (Hmail eq_refl) as [Hform ->].
      destruct (contact_mail_Some req w Hform) as [m ->]. reflexivity. }
    split; [split|exact Hok].
    + apply contact_success_required.
    + intros Hreq. rewrite (Hok Hreq). reflexivity.
  - intros Hreq. rewrite contact_handler_course, Hreq. split; reflexivity.
Qed.

(** C2, as amended. For every request to POST /api/appointment during
    which the insert does not raise, the response succeeds if and only if
    name and email are both present; for every request to POST /api/quote
    during which the insert does not raise and, where the mail account is
    configured, the notification can be composed and is sent without
    error, it succeeds if and only if contactName and email are both
    present. Whatever the store does, a request that lacks either field of
    its pair gets status 400 and leaves the world, so the store,
    untouched. *)
Theorem appointment_quote_success_iff_required req w :
  (pool_fault w = None ->
   (is_success (appointment_handler env req w).1 = true <->
    appointment_required req = true))
  /\ (pool_fault w = None ->
      (email_configured env = true ->
       forallb has_string_form (quote_substitutions req) = true
       /\ smtp_fault w = None) ->
      (is_success (quote_handler env req w).1 = true <->
       quote_required req = true))
  /\ (appointment_required req = false ->
      (appointment_handler env req w).1 =
        Normal
          {| status := 400;
             json :=
               JObj [("error",
                      JStr "Name and email are required for appointment requests")] |}
      /\ (appointment_handler env req w).2 = w)
  /\ (quote_required req = false ->
      (quote_handler env req w).1 =
        Normal
          {| status := 400;
             json :=
               JObj [("error",
                      JStr "Contact name and email are required for quote requests")] |}
      /\ (quote_handler env req w).2 = w).
Proof.
  split; [|split; [|split]].
  - intros Hpool. split; [apply appointment_success_required|].
    intros Hreq. rewrite appointment_handler_course, Hreq, Hpool. reflexivity.
  - intros Hpool Hmail. split; [apply quote_success_required|].
    intros Hreq. rewrite quote_handler_course, Hreq, Hpool.
    destruct (email_configured env); [|reflexivity].
    destruct (Hmail eq_refl) as [Hform ->].
    destruct (quote_mail_Some req w Hform) as [m ->]. reflexivity.
  - intros Hreq. rewrite appointment_handler_course, Hreq. split; reflexivity.
  - intros Hreq. rewrite quote_handler_course, Hreq. split; reflexivity.
Qed.

(** C5, as amended. Without both e-mail credentials in the environment,
    a contact or quote submission makes no call of the mail transport at
    all, whatever else happens; and when its required fields are present
    and the insert does not raise, its row is stored and the success
    response returned, whether or not the mail transport is working.
    Conversely, a handler that did call the transport ran with both
    EMAIL_USER and EMAIL_PASSWORD set to non-empty values. *)
Theorem no_credentials_no_dispatch req w :
  (email_configured env = false ->
   sendMail_calls (contact_handler env req w).2 = sendMail_calls w
   /\ sendMail_calls (quote_handler env req w).2 = sendMail_calls w
   /\ (pool_fault w = None -> contact_required req = true ->
       (contact_handler env req w).1 =
         Normal
           {| status := 200;
              json :=
                JObj [("success", JBool true);
                      ("message",
                       JStr "Thank you for contacting us. We will reach out to you soon!");
                      ("submissionId",
                       JNum (Number_of_Z (next_id (contact_submissions (db w)))))] |}
       /\ rows (contact_submissions (db (contact_handler env req w).2)) =
            (rows (contact_submissions (db w)) ++
             [{| id := next_id (contact_submissions (db w));
                 columns := contact_params req;
                 created_at := now w |}])%list)
   /\ (pool_fault w = None -> quote_required req = true ->
       (quote_handler env req w).1 =
         Normal
           {| status := 200;
              json :=
                JObj [("success", JBool true);
                      ("message",
                       JStr "Quote request received. We will prepare your personalized quote and contact you soon.");
                      ("quoteId",
                       JNum (Number_of_Z (next_id (quote_requests (db w)))))] |}
       /\ rows (quote_requests (db (quote_handler env req w).2)) =
            (rows (quote_requests (db w)) ++
             [{| id := next_id (quote_requests (db w));
                 columns := quote_params req;
                 created_at := now w |}])%list))
  /\ (sendMail_calls (contact_handler env req w).2 <> sendMail_calls w
      \/ sendMail_calls (quote_handler env req w).2 <> sendMail_calls w ->
      exists user password,
        env !! "EMAIL_USER" = Some user /\ user <> "" /\
        env !! "EMAIL_PASSWORD" = Some password /\ password <> "").
Proof.
  assert (email_configured env = false ->
          sendMail_calls (contact_handler env req w).2 = sendMail_calls w
          /\ sendMail_calls (quote_handler env req w).2 = sendMail_calls w)
    as Hquiet.
  { intros Hmail. rewrite contact_handler_course, quote_handler_course, Hmail.
    split.
    - destruct (contact_required req), (pool_fault w); reflexivity.
    - destruct (quote_required req), (pool_fault w); reflexivity. }
  split.
  - intros Hmail. destruct (Hquiet Hmail) as [Hcontact Hquote].
    split; [exact Hcontact|]. split; [exact Hquote|].
    rewrite contact_handler_course, quote_handler_course, Hmail.
    split; intros -> ->; split; reflexivity.
  - intros Hcalled. apply email_configured_spec.
    destruct (email_configured env); [reflexivity|].
    destruct (Hquiet eq_refl) as [Hcontact Hquote].
    destruct Hcalled as [Hcalled|Hcalled]; contradiction.
Qed.

(** C6. The appointment, survey and newsletter handlers never call the
    mail transport: for every request, every environment and every world,
    the list of [sendMail] calls is after the handler what it was
    before. *)
Theorem appointment_survey_newsletter_never_notify req w :
  sendMail_calls (appointment_handler env req w).2 = sendMail_calls w
  /\ sendMail_calls (survey_handler req w).2 = sendMail_calls w
  /\ sendMail_calls (newsletter_handler req w).2 = sendMail_calls w.
Proof.
  rewrite appointment_handler_course, survey_handler_course,
    newsletter_handler_course.
  split; [|split].
  - destruct (appointment_required req), (pool_fault w); reflexivity.
  - destruct (pool_fault w); reflexivity.
  - destruct (newsletter_required req), (pool_fault w); reflexivity.
Qed.

(** C7. When the insert of a POST route raises, the handler completes
    normally (nothing is thrown out of it) with status 500 and a body that
    holds only the route's fixed failure message: the body is the same
    for every error and every environment, development mode included. The
    error goes to the console, and the store is left as it was. *)
Theorem store_failure_generic_500 e req w err :
  required e req = true ->
  pool_fault w = Some err ->
  (post env e req w).1 =
    Normal {| status := 500; json := JObj [("error", JStr (failure_message e))] |}
  /\ db (post env e req w).2 = db w
  /\ console (post env e req w).2 =
       (console w ++ [LogError (failure_label e) err])%list.
Proof.
  intros Hreq Hpool. rewrite (post_store_failure e req w err Hreq Hpool).
  repeat split.
Qed.

(** C9. With the credentials configured, a contact or quote submission
    whose insert went through while the mail transport refuses mail is
    answered with the route's generic 500, not with success: the response
    is made only after the dispatch has settled. The row inserted before
    stays in the store, the transport was called at most once (no retry),
    with the composed mail, and the error is written to the console, not
    to the response. A mail is composed, and so handed over, whenever
    every substituted value has a string form; when one has none,
    composing throws in place of the dispatch, with the same answer. *)
Theorem dispatch_failure_after_insert req w err :
  email_configured env = true ->
  pool_fault w = None ->
  smtp_fault w = Some err ->
  (contact_required req = true ->
   (contact_handler env req w).1 =
     Normal {| status := 500;
               json := JObj [("error", JStr "Failed to submit contact form")] |}
   /\ rows (contact_submissions (db (contact_handler env req w).2)) =
        (rows (contact_submissions (db w)) ++
         [{| id := next_id (contact_submissions (db w));
             columns := contact_params req;
             created_at := now w |}])%list
   /\ sendMail_calls (contact_handler env req w).2 =
        (sendMail_calls w ++
         match contact_layout ToString env req w with
         | Some m => [m]
         | None => []
         end)%list
   /\ console (contact_handler env req w).2 =
        (console w ++
         [LogError "Contact form error:"
            match contact_layout ToString env req w with
            | Some _ => err
            | None => ToPrimitive_TypeError
            end])%list
   /\ (forallb has_string_form (contact_substitutions req) = true ->
       exists m, contact_layout ToString env req w = Some m))
  /\ (quote_required req = true ->
      (quote_handler env req w).1 =
        Normal {| status := 500;
                  json := JObj [("error", JStr "Failed to submit quote request")] |}
      /\ rows (quote_requests (db (quote_handler env req w).2)) =
           (rows (quote_requests (db w)) ++
            [{| id := next_id (quote_requests (db w));
                columns := quote_params req;
                created_at := now w |}])%list
      /\ sendMail_calls (quote_handler env req w).2 =
           (sendMail_calls w ++
            match quote_layout ToString env req w with
            | Some m => [m]
            | None => []
            end)%list
      /\ console (quote_handler env req w).2 =
           (console w ++
            [LogError "Quote request error:"
               match quote_layout ToString env req w with
               | Some _ => err
               | None => ToPrimitive_TypeError
               end])%list
      /\ (forallb has_string_form (quote_substitutions req) = true ->
          exists m, quote_layout ToString env req w = Some m)).
Proof.
  intros Hmail Hpool Hsmtp.
  rewrite contact_handler_course, quote_handler_course, Hmail, Hpool, Hsmtp.
  split; intros ->.
  - change (contact_layout ToString env req w) with (contact_mail env req w).
    split; [destruct (contact_mail env req w); reflexivity|].
    split; [destruct (contact_mail env req w); reflexivity|].
    split; [destruct (contact_mail env req w);
            [reflexivity | symmetry; apply app_nil_r]|].
    split; [destruct (contact_mail env req w); reflexivity|].
    apply contact_mail_Some.
  - change (quote_layout ToString env req w) with (quote_mail env req w).
    split; [destruct (quote_mail env req w); reflexivity|].
    split; [destruct (quote_mail env req w); reflexivity|].
    split; [destruct (quote_mail env req w);
            [reflexivity | symmetry; apply app_nil_r]|].
    split; [destruct (quote_mail env req w); reflexivity|].
    apply quote_mail_Some.
Qed.

(** C10. GET /api/health answers 200 with status 'healthy' and the fixed
    message in every world, the store unreachable or not, and for every
    request; it runs no query and changes nothing. *)
Theorem health_always_healthy req w :
  health_handler req w =
    (Normal {| status := 200;
               json := JObj [("status", JStr "healthy");
                             ("message", JStr "LifeLine Health Plans API is running");
                             ("timestamp", JStr (Date_toISOString (now w)))] |},
     w).
Proof. reflexivity. Qed.
End Pipeline.

(** ** The newsletter upsert *)

Section Collisions.
Context `{!JsRuntime}.

(** SQL equality is an equivalence on bound values: it holds of a bound
    value and itself, and two values equal to each other are equal to the
    same values. *)
Lemma sql_eqb_bound v : sql_eqb (SqlBound v) (SqlBound v) = true.
Proof. apply String.eqb_refl. Qed.

Lemma sql_eqb_trans a b c :
  sql_eqb a b = true -> sql_eqb a c = sql_eqb b c.
Proof.
  destruct a as [|x|], b as [|y|]; simpl; try discriminate.
  intros Heq. apply String.eqb_eq in Heq.
  destruct c; simpl; [reflexivity| |reflexivity].
  rewrite Heq. reflexivity.
Qed.

Lemma sql_eqb_trans_r a b c :
  sql_eqb a b = true -> sql_eqb c a = sql_eqb c b.
Proof.
  destruct a as [|x|], b as [|y|]; simpl; try discriminate.
  intros Heq. apply String.eqb_eq in Heq.
  destruct c; simpl; [reflexivity| |reflexivity].
  rewrite Heq. reflexivity.
Qed.

(** A row that collides with one address collides with another only when
    the two are equal. *)
Lemma conflicts_elsewhere key other x :
  conflicts key x = true -> conflicts other x = sql_eqb key other.
Proof.
  unfold conflicts. destruct (columns x) as [|c cs]; [discriminate|].
  intros Heq. apply (sql_eqb_trans c key other Heq).
Qed.

(** Two equal addresses collide with the same rows. *)
Lemma conflicts_same key other x :
  sql_eqb key other = true -> conflicts other x = conflicts key x.
Proof.
  unfold conflicts. destruct (columns x) as [|c cs]; [reflexivity|].
  intros Heq. symmetry. apply (sql_eqb_trans_r key other c Heq).
Qed.

(** The row an upsert finds holds, in its e-mail column, the text of the
    new address. *)
Lemma conflicts_same_text v old :
  conflicts (SqlBound v) old = true ->
  exists k other,
    columns old = SqlBound k :: other /\ driver_text k = driver_text v.
Proof.
  unfold conflicts. destruct (columns old) as [|[|k|] other]; try discriminate.
  simpl. intros Heq. apply String.eqb_eq in Heq. eauto.
Qed.

(** A present e-mail is bound as itself, and collides with a row stored
    under it. *)
Lemma prepareValue_present v : ToBoolean v = true -> prepareValue v = SqlBound v.
Proof. destruct v; simpl; intros; congruence. Qed.

Lemma conflicts_own_row v i name t :
  ToBoolean v = true ->
  conflicts (prepareValue v)
    {| id := i; columns := [prepareValue v; name]; created_at := t |} = true.
Proof.
  intros Hv. rewrite (prepareValue_present v Hv). apply sql_eqb_bound.
Qed.

Section Upsert.
Variable key : SqlValue.
Variable r : Row.

Lemma filter_overwritten l :
  conflicts key r = true ->
  List.filter (conflicts key) (map (fun x => if conflicts key x then r else x) l)
  = map (fun _ => r) (List.filter (conflicts key) l).
Proof.
  intros Hr. induction l as [|x l IH]; [reflexivity|]. simpl.
  destruct (conflicts key x) eqn:Hx.
  - simpl. rewrite Hr, IH. reflexivity.
  - simpl. rewrite Hx. exact IH.
Qed.

Lemma filter_overwritten_elsewhere other l :
  columns r = [key; nth 1 (columns r) SqlNull] ->
  sql_eqb key other = false ->
  List.filter (conflicts other) (map (fun x => if conflicts key x then r else x) l)
  = List.filter (conflicts other) l.
Proof.
  intros Hcolumns Hother. induction l as [|x l IH]; [reflexivity|]. simpl.
  destruct (conflicts key x) eqn:Hx.
  - rewrite (conflicts_elsewhere key other x Hx), Hother.
    unfold conflicts at 1. rewrite Hcolumns, Hother. exact IH.
  - destruct (conflicts other x); [f_equal|]; exact IH.
Qed.

Lemma filter_no_conflict l :
  find (conflicts key) l = None -> List.filter (conflicts key) l = [].
Proof.
  induction l as [|x l IH]; [reflexivity|]. simpl.
  destruct (conflicts key x); [discriminate | exact IH].
Qed.

Lemma filter_some_conflict l old :
  find (conflicts key) l = Some old -> List.filter (conflicts key) l <> [].
Proof.
  induction l as [|x l IH]; [discriminate|]. simpl.
  destruct (conflicts key x); [discriminate | exact IH].
Qed.

Lemma filter_same other l :
  sql_eqb key other = true ->
  List.filter (conflicts other) l = List.filter (conflicts key) l.
Proof.
  intros Hother. apply List.filter_ext. intros x.
  apply conflicts_same, Hother.
Qed.
End Upsert.

(** After the upsert, the table holds under the key exactly the upserted
    row, provided it held at most one row under it before. *)
Lemma upsert_leaves_one key name now t :
  sql_eqb key key = true ->
  (length (List.filter (conflicts key) (rows t)) <= 1)%nat ->
  exists i,
    List.filter (conflicts key) (rows (upsert_returning key name now t).2)
    = [{| id := i; columns := [key; name]; created_at := now |}].
Proof.
  intros Hown Hunique. unfold upsert_returning.
  destruct (find (conflicts key) (rows t)) as [old|] eqn:Hfind; simpl.
  - exists (id old).
    rewrite (filter_overwritten key
               {| id := id old; columns := [key; name]; created_at := now |}
               (rows t) Hown).
    apply filter_some_conflict in Hfind.
    destruct (List.filter (conflicts key) (rows t)) as [|x [|y l]];
      [congruence | reflexivity | simpl in Hunique; lia].
  - exists (next_id t). rewrite List.filter_app, (filter_no_conflict key _ Hfind).
    simpl. unfold conflicts. simpl. rewrite Hown. reflexivity.
Qed.

(** The upsert keeps the e-mail column unique. *)
Lemma upsert_keeps_unique key name now t :
  unique_emails t -> unique_emails (upsert_returning key name now t).2.
Proof.
  intros Hunique other. unfold upsert_returning.
  destruct (find (conflicts key) (rows t)) as [old|] eqn:Hfind; simpl.
  - destruct (sql_eqb key other) eqn:Hother.
    + rewrite (filter_same key other _ Hother).
      assert (sql_eqb key key = true) as Hown.
      { apply find_some in Hfind as [_ Hold].
        rewrite <- (conflicts_elsewhere key key old Hold). exact Hold. }
      rewrite (filter_overwritten key
                 {| id := id old; columns := [key; name]; created_at := now |}
                 (rows t) Hown).
      rewrite length_map. apply Hunique.
    + rewrite filter_overwritten_elsewhere by (reflexivity || exact Hother).
      apply Hunique.
  - rewrite List.filter_app, length_app. simpl. unfold conflicts at 2. simpl.
    destruct (sql_eqb key other) eqn:Hother; simpl.
    + rewrite (filter_same key other _ Hother).
      rewrite (filter_no_conflict key _ Hfind). simpl. lia.
    + pose proof (Hunique other). lia.
Qed.

(** The newsletter handler keeps the e-mail column unique, and an empty
    table has it so. *)
Lemma newsletter_handler_keeps_unique req w :
  unique_emails (newsletter_subscriptions (db w)) ->
  unique_emails (newsletter_subscriptions (db (newsletter_handler req w).2)).
Proof.
  intros Hunique. rewrite newsletter_handler_course.
  destruct (newsletter_required req), (pool_fault w); try exact Hunique.
  apply upsert_keeps_unique, Hunique.
Qed.

Lemma empty_table_unique : unique_emails empty_table.
Proof. intros key. simpl. lia. Qed.

(** C3, as amended. Two subscriptions under the same e-mail, with the
    store accepting both statements and the e-mail column unique to begin
    with, are both answered with status 200 and the fields success and
    message, and afterwards the table holds exactly one row under the
    e-mail: it carries the second request's name and the time of the
    second request as its creation time. *)
Theorem newsletter_resubscription_keeps_one_row req1 req2 w w' :
  get_property (body req2) "email" = get_property (body req1) "email" ->
  newsletter_required req1 = true ->
  pool_fault w = None ->
  unique_emails (newsletter_subscriptions (db w)) ->
  newsletter_subscriptions (db w') =
    newsletter_subscriptions (db (newsletter_handler req1 w).2) ->
  pool_fault w' = None ->
  (newsletter_handler req1 w).1 =
    Normal
      {| status := 200;
         json :=
           JObj [("success", JBool true);
                 ("message", JStr "Successfully subscribed to our newsletter!")] |}
  /\ (newsletter_handler req2 w').1 =
       Normal
         {| status := 200;
            json :=
              JObj [("success", JBool true);
                    ("message",
                     JStr "Successfully subscribed to our newsletter!")] |}
  /\ exists i,
       List.filter (conflicts (prepareValue (get_property (body req1) "email")))
         (rows (newsletter_subscriptions (db (newsletter_handler req2 w').2)))
       = [{| id := i;
             columns :=
               [prepareValue (get_property (body req1) "email");
                prepareValue (get_property (body req2) "name")];
             created_at := now w' |}].
Proof.
  intros Hsame Hreq1 Hpool Hunique Htable Hpool'.
  assert (newsletter_required req2 = true) as Hreq2.
  { unfold newsletter_required, present in *. rewrite Hsame. exact Hreq1. }
  pose proof (newsletter_handler_keeps_unique req1 w Hunique) as Hunique'.
  rewrite <- Htable in Hunique'.
  rewrite newsletter_handler_course, Hreq1, Hpool.
  rewrite newsletter_handler_course, Hreq2, Hpool'.
  split; [reflexivity|]. split; [reflexivity|].
  unfold newsletter_stored, field. simpl. rewrite Hsame.
  apply upsert_leaves_one; [|apply Hunique'].
  rewrite (prepareValue_present _ Hreq1). apply sql_eqb_bound.
Qed.
End Collisions.

(** ** The survey round trip *)

(** Only [undefined] has no JSON form. *)
Lemma JSON_stringify_None v : JSON_stringify v = None -> v = JUndefined.
Proof. destruct v as [| | |[]| | |]; simpl; congruence. Qed.

Lemma stringify_members_length write props :
  (length (stringify_members write props) <= length props)%nat.
Proof.
  induction props as [|kv rest IH]; simpl; [lia|].
  destruct (write (snd kv)); simpl; lia.
Qed.

(** [JSON.parse] undoes [JSON.stringify] on the values it writes down
    exactly. *)
Lemma JSON_roundtrip v :
  json_exact v = true ->
  exists t, JSON_stringify v = Some t /\ JSON_parse t = v.
Proof.
  induction v as [| |b|n|s|items IH|props IH] using JsValue_nested_ind; simpl;
    intros Hexact; try discriminate; try (eexists; split; reflexivity).
  - destruct n; try discriminate. eexists; split; reflexivity.
  - eexists; split; [reflexivity|]. simpl. f_equal.
    induction IH as [|x l Hx _ IHl]; [reflexivity|].
    simpl in Hexact. apply andb_prop in Hexact as [Hx' Hl'].
    simpl. unfold stringify_element at 1.
    destruct (Hx Hx') as (t & -> & ->). rewrite (IHl Hl'). reflexivity.
  - eexists; split; [reflexivity|]. simpl. f_equal.
    induction IH as [|[k x] l Hx _ IHl]; [reflexivity|].
    simpl in Hexact. apply andb_prop in Hexact as [Hx' Hl'].
    simpl in *. destruct (Hx Hx') as (t & -> & <-). simpl.
    rewrite (IHl Hl'). reflexivity.
Qed.

(** And on no other value: what is not written down exactly does not come
    back. *)
Lemma JSON_roundtrip_only_exact v :
  (exists t, JSON_stringify v = Some t /\ JSON_parse t = v) ->
  json_exact v = true.
Proof.
  induction v as [| |b|n|s|items IH|props IH] using JsValue_nested_ind; simpl;
    intros (t & Hwrite & Hparse); try reflexivity; try discriminate.
  - destruct n; simplify_eq; try discriminate; reflexivity.
  - simplify_eq. simpl in Hparse. injection Hparse as Hitems.
    induction IH as [|x l Hx _ IHl]; [reflexivity|].
    simpl in Hitems. injection Hitems as Hhead Htail.
    simpl. rewrite (IHl Htail), andb_true_r. apply Hx.
    unfold stringify_element in Hhead.
    destruct (JSON_stringify x) as [t|] eqn:Hwrite; [eauto|].
    apply JSON_stringify_None in Hwrite. subst x. discriminate.
  - simplify_eq. simpl in Hparse. injection Hparse as Hprops.
    induction IH as [|[k x] l Hx _ IHl]; [reflexivity|].
    simpl in Hprops, Hx |- *.
    destruct (JSON_stringify x) as [t|] eqn:Hwrite.
    + simpl in Hprops. injection Hprops as Hhead Htail.
      rewrite (IHl Htail), andb_true_r. apply Hx. eauto.
    + apply (f_equal (@length _)) in Hprops.
      rewrite length_map in Hprops. simpl in Hprops.
      pose proof (stringify_members_length JSON_stringify l). lia.
Qed.

(** C8, as amended. A survey submission during which the insert does not
    raise returns success and stores a row whose survey_data, read back and
    parsed, equals the submitted surveyData exactly when JSON.stringify
    writes that value down exactly: null, booleans, strings, finite numbers
    other than negative zero, and arrays and objects of these. *)
Theorem survey_data_round_trip req w :
  pool_fault w = None ->
  (survey_handler req w).1 = Normal (survey_success w)
  /\ rows (survey_submissions (db (survey_handler req w).2)) =
       (rows (survey_submissions (db w)) ++
        [inserted (survey_params req) (now w) (survey_submissions (db w))])%list
  /\ (json_exact (get_property (body req) "surveyData") = true <->
      read_back (stored_survey_data req) = get_property (body req) "surveyData").
Proof.
  intros Hpool. rewrite survey_handler_course, Hpool.
  split; [reflexivity|]. split; [reflexivity|].
  unfold stored_survey_data, survey_params. simpl.
  set (surveyData := get_property (body req) "surveyData"). split.
  - intros Hexact. destruct (JSON_roundtrip _ Hexact) as (t & -> & Hparse).
    exact Hparse.
  - intros Hback. apply JSON_roundtrip_only_exact.
    destruct (JSON_stringify surveyData) as [t|] eqn:Hwrite; [eauto|].
    apply JSON_stringify_None in Hwrite. rewrite Hwrite in Hback. discriminate.
Qed.

(** ** The notification templates *)

Section Templates.
Context `{!JsRuntime}.
Variable env : Env.

(** The mail the contact handler builds is its layout with each value in
    its plain string form. *)
Lemma contact_mail_layout req w :
  contact_mail env req w = contact_layout ToString env req w.
Proof. reflexivity. Qed.

Lemma quote_mail_layout req w :
  quote_mail env req w = quote_layout ToString env req w.
Proof. reflexivity. Qed.

(** C4, as amended. For every contact and quote notification email, the
    user-supplied values are substituted into the fixed subject and body
    layout in their plain string form, unescaped: the one mail handed to
    the transport is that layout. Such a mail exists exactly when every
    substituted value has a string form; when one has none, no mail is
    handed over. *)
Theorem notifications_substitute_verbatim req w :
  email_configured env = true ->
  pool_fault w = None ->
  (contact_required req = true ->
   sendMail_calls (contact_handler env req w).2 =
     (sendMail_calls w ++
      match contact_layout ToString env req w with
      | Some m => [m]
      | None => []
      end)%list
   /\ (contact_layout ToString env req w <> None <->
       forallb has_string_form (contact_substitutions req) = true))
  /\ (quote_required req = true ->
      sendMail_calls (quote_handler env req w).2 =
        (sendMail_calls w ++
         match quote_layout ToString env req w with
         | Some m => [m]
         | None => []
         end)%list
      /\ (quote_layout ToString env req w <> None <->
          forallb has_string_form (quote_substitutions req) = true)).
Proof.
  intros Hmail Hpool.
  rewrite contact_handler_course, quote_handler_course, Hmail, Hpool.
  rewrite <- contact_mail_layout, <- quote_mail_layout.
  split; intros ->.
  - split; [|apply contact_mail_composes].
    destruct (contact_mail env req w); [|symmetry; apply app_nil_r].
    destruct (smtp_fault w); reflexivity.
  - split; [|apply quote_mail_composes].
    destruct (quote_mail env req w); [|symmetry; apply app_nil_r].
    destruct (smtp_fault w); reflexivity.
Qed.
End Templates.

(** ** The handlers on concrete requests *)

Section Examples.
#[local] Existing Instance marker_runtime.

(** C1 as stated fails: with name and email present, the contact route
    answers neither success nor 400 but the generic 500 while the store is
    unreachable, and also, with both services up and the mail account
    configured, when the name is an object with a [toString] property of
    its own: composing the mail throws after the row is stored, and no
    mail is sent. *)
Lemma contact_required_present_store_down :
  contact_required ann_contact = true
  /\ (contact_handler bare_env ann_contact store_down).1 =
       Normal {| status := 500;
                 json := JObj [("error", JStr "Failed to submit contact form")] |}
  /\ is_success (contact_handler bare_env ann_contact store_down).1 = false
  /\ rows (contact_submissions
             (db (contact_handler bare_env ann_contact store_down).2)) = []
  /\ contact_required unprintable_contact = true
  /\ (contact_handler mail_env unprintable_contact fresh_world).1 =
       Normal {| status := 500;
                 json := JObj [("error", JStr "Failed to submit contact form")] |}
  /\ sendMail_calls (contact_handler mail_env unprintable_contact fresh_world).2
     = []
  /\ console (contact_handler mail_env unprintable_contact fresh_world).2 =
       [LogError "Contact form error:"
          {| message := "Cannot convert object to primitive value";
             stack := "TypeError: Cannot convert object to primitive value" |}]
  /\ map id
       (rows (contact_submissions
                (db (contact_handler mail_env unprintable_contact fresh_world).2)))
     = [1].
Proof. repeat split. Qed.

Lemma contact_success_iff_required_witness :
  (is_success (contact_handler mail_env ann_contact fresh_world).1 = true <->
   contact_required ann_contact = true)
  /\ (contact_handler mail_env ann_contact fresh_world).1 =
       Normal
         {| status := 200;
            json :=
              JObj [("success", JBool true);
                    ("message",
                     JStr "Thank you for contacting us. We will reach out to you soon!");
                    ("submissionId", JNum (Number_of_Z 1))] |}
  /\ (contact_handler mail_env anonymous_contact store_down).1 =
       Normal
         {| status := 400;
            json :=
              JObj [("error",
                     JStr "Name and either email or phone number are required")] |}
  /\ (contact_handler mail_env anonymous_contact store_down).2 = store_down.
Proof.
  destruct (contact_success_iff_required mail_env ann_contact
              fresh_world) as [Hok _].
  destruct (Hok eq_refl (fun _ => conj eq_refl eq_refl)) as [Hiff Hresp].
  destruct (contact_success_iff_required mail_env anonymous_contact
              store_down) as [_ Hrej].
  split; [exact Hiff|].
  split; [apply Hresp; reflexivity | apply Hrej; reflexivity].
Defined.

(** C2 as stated fails: with the required pair present, the appointment
    route answers 500 while the store is unreachable, and the quote route
    answers 500 when the notification cannot be sent, or cannot be
    composed because the contact name has no string form. *)
Lemma appointment_quote_required_present_yet_500 :
  appointment_required ann_appointment = true
  /\ (appointment_handler bare_env ann_appointment store_down).1 =
       Normal {| status := 500;
                 json := JObj [("error",
                                JStr "Failed to submit appointment request")] |}
  /\ quote_required ann_quote = true
  /\ (quote_handler mail_env ann_quote smtp_down).1 =
       Normal {| status := 500;
                 json := JObj [("error", JStr "Failed to submit quote request")] |}
  /\ quote_required unprintable_quote = true
  /\ (quote_handler mail_env unprintable_quote fresh_world).1 =
       Normal {| status := 500;
                 json := JObj [("error", JStr "Failed to submit quote request")] |}
  /\ sendMail_calls (quote_handler mail_env unprintable_quote fresh_world).2 = [].
Proof. repeat split. Qed.

Lemma appointment_quote_success_iff_required_witness :
  (is_success (appointment_handler mail_env ann_appointment fresh_world).1 = true <->
   appointment_required ann_appointment = true)
  /\ (is_success (quote_handler mail_env ann_quote fresh_world).1 = true <->
      quote_required ann_quote = true)
  /\ ((appointment_handler mail_env anonymous_contact store_down).1 =
        Normal
          {| status := 400;
             json :=
               JObj [("error",
                      JStr "Name and email are required for appointment requests")] |}
      /\ (appointment_handler mail_env anonymous_contact store_down).2 = store_down)
  /\ ((quote_handler mail_env anonymous_contact store_down).1 =
        Normal
          {| status := 400;
             json :=
               JObj [("error",
                      JStr "Contact name and email are required for quote requests")] |}
      /\ (quote_handler mail_env anonymous_contact store_down).2 = store_down).
Proof.
  destruct (appointment_quote_success_iff_required mail_env
              ann_appointment fresh_world) as (Happointment & _).
  destruct (appointment_quote_success_iff_required mail_env
              ann_quote fresh_world) as (_ & Hquote & _).
  destruct (appointment_quote_success_iff_required mail_env
              anonymous_contact store_down) as (_ & _ & Hrej1 & Hrej2).
  split; [exact (Happointment eq_refl)|].
  split; [exact (Hquote eq_refl (fun _ => conj eq_refl eq_refl))|].
  split; [apply Hrej1; reflexivity | apply Hrej2; reflexivity].
Defined.

(** C3 as stated fails: when the store refuses the second statement, the
    second call does not return success but the generic 500, and the row
    keeps the first submission's name and time. *)
Lemma newsletter_second_call_store_down :
  (newsletter_handler ann_newsletter fresh_world).1 =
    Normal
      {| status := 200;
         json :=
           JObj [("success", JBool true);
                 ("message", JStr "Successfully subscribed to our newsletter!")] |}
  /\ newsletter_subscriptions (db ann_subscribed_store_down) =
       newsletter_subscriptions (db (newsletter_handler ann_newsletter fresh_world).2)
  /\ (newsletter_handler annie_newsletter ann_subscribed_store_down).1 =
       Normal {| status := 500;
                 json := JObj [("error",
                                JStr "Failed to subscribe to newsletter")] |}
  /\ is_success (newsletter_handler annie_newsletter ann_subscribed_store_down).1
     = false
  /\ rows (newsletter_subscriptions
             (db (newsletter_handler annie_newsletter ann_subscribed_store_down).2))
     = [{| id := 1;
           columns := [SqlBound (JStr "a@b.com"); SqlBound (JStr "Ann")];
           created_at := 1000 |}].
Proof. repeat split. Qed.

Lemma newsletter_resubscription_witness :
  (newsletter_handler ann_newsletter fresh_world).1 =
    Normal
      {| status := 200;
         json :=
           JObj [("success", JBool true);
                 ("message", JStr "Successfully subscribed to our newsletter!")] |}
  /\ (newsletter_handler annie_newsletter
        (set_now 2000 (newsletter_handler ann_newsletter fresh_world).2)).1
     = Normal
         {| status := 200;
            json :=
              JObj [("success", JBool true);
                    ("message",
                     JStr "Successfully subscribed to our newsletter!")] |}
  /\ exists i,
       List.filter (conflicts (SqlBound (JStr "a@b.com")))
         (rows (newsletter_subscriptions
                  (db (newsletter_handler annie_newsletter
                         (set_now 2000
                            (newsletter_handler ann_newsletter fresh_world).2)).2)))
       = [{| id := i;
             columns := [SqlBound (JStr "a@b.com"); SqlBound (JStr "Annie")];
             created_at := 2000 |}].
Proof.
  apply (newsletter_resubscription_keeps_one_row ann_newsletter annie_newsletter
           fresh_world
           (set_now 2000 (newsletter_handler ann_newsletter fresh_world).2));
    try reflexivity.
  apply empty_table_unique.
Defined.

(** C4 as stated fails: markup in a submitted name reaches the mail body
    as it came, where escaping would have turned its angle brackets into
    entities. *)
Lemma contact_notification_keeps_markup :
  (exists m,
     sendMail_calls (contact_handler mail_env markup_contact fresh_world).2 = [m]
     /\ contact_layout ToString mail_env markup_contact fresh_world = Some m
     /\ index 0 "<strong>Name:</strong> <script>alert(1)</script></p>" (html m)
        = Some 61%nat)
  /\ (exists m,
        contact_layout escaped mail_env markup_contact fresh_world = Some m
        /\ index 0
             "<strong>Name:</strong> &lt;script&gt;alert(1)&lt;/script&gt;</p>"
             (html m)
           = Some 61%nat)
  /\ contact_layout ToString mail_env markup_contact fresh_world <>
     contact_layout escaped mail_env markup_contact fresh_world.
Proof.
  split; [|split].
  - eexists. split; [reflexivity|]. split; reflexivity.
  - eexists. split; reflexivity.
  - intros Heq. vm_compute in Heq. discriminate Heq.
Qed.

Lemma notifications_substitute_verbatim_witness :
  (sendMail_calls (contact_handler mail_env ann_contact fresh_world).2 =
     match contact_layout ToString mail_env ann_contact fresh_world with
     | Some m => [m]
     | None => []
     end
   /\ (contact_layout ToString mail_env ann_contact fresh_world <> None <->
       forallb has_string_form (contact_substitutions ann_contact) = true))
  /\ (sendMail_calls (quote_handler mail_env ann_quote fresh_world).2 =
        match quote_layout ToString mail_env ann_quote fresh_world with
        | Some m => [m]
        | None => []
        end
      /\ (quote_layout ToString mail_env ann_quote fresh_world <> None <->
          forallb has_string_form (quote_substitutions ann_quote) = true)).
Proof.
  destruct (notifications_substitute_verbatim mail_env ann_contact
              fresh_world eq_refl eq_refl) as [Hcontact _].
  destruct (notifications_substitute_verbatim mail_env ann_quote
              fresh_world eq_refl eq_refl) as [_ Hquote].
  split; [exact (Hcontact eq_refl) | exact (Hquote eq_refl)].
Defined.

(** C5 as stated fails: without credentials, a valid contact or quote
    submission does not succeed when the store refuses the insert; it is
    answered with the generic 500 and no row is stored. *)
Lemma no_credentials_store_down_no_success :
  email_configured bare_env = false
  /\ contact_required ann_contact = true
  /\ (contact_handler bare_env ann_contact store_down).1 =
       Normal {| status := 500;
                 json := JObj [("error", JStr "Failed to submit contact form")] |}
  /\ rows (contact_submissions
             (db (contact_handler bare_env ann_contact store_down).2)) = []
  /\ quote_required ann_quote = true
  /\ (quote_handler bare_env ann_quote store_down).1 =
       Normal {| status := 500;
                 json := JObj [("error", JStr "Failed to submit quote request")] |}
  /\ rows (quote_requests
             (db (quote_handler bare_env ann_quote store_down).2)) = [].
Proof. repeat split. Qed.

Lemma no_credentials_no_dispatch_witness :
  (sendMail_calls (contact_handler bare_env ann_contact smtp_down).2 = []
   /\ sendMail_calls (quote_handler bare_env ann_quote smtp_down).2 = []
   /\ ((contact_handler bare_env ann_contact smtp_down).1 =
         Normal
           {| status := 200;
              json :=
                JObj [("success", JBool true);
                      ("message",
                       JStr "Thank you for contacting us. We will reach out to you soon!");
                      ("submissionId", JNum (Number_of_Z 1))] |}
       /\ rows (contact_submissions
                  (db (contact_handler bare_env ann_contact smtp_down).2)) =
            [{| id := 1; columns := contact_params ann_contact;
                created_at := 1000 |}])
   /\ ((quote_handler bare_env ann_quote smtp_down).1 =
         Normal
           {| status := 200;
              json :=
                JObj [("success", JBool true);
                      ("message",
                       JStr "Quote request received. We will prepare your personalized quote and contact you soon.");
                      ("quoteId", JNum (Number_of_Z 1))] |}
       /\ rows (quote_requests
                  (db (quote_handler bare_env ann_quote smtp_down).2)) =
            [{| id := 1; columns := quote_params ann_quote;
                created_at := 1000 |}]))
  /\ exists user password,
       mail_env !! "EMAIL_USER" = Some user /\ user <> "" /\
       mail_env !! "EMAIL_PASSWORD" = Some password /\ password <> "".
Proof.
  destruct (no_credentials_no_dispatch bare_env ann_contact smtp_down)
    as [Hcontact _].
  destruct (Hcontact eq_refl) as (Hcalls & _ & Hstored & _).
  destruct (no_credentials_no_dispatch bare_env ann_quote smtp_down)
    as [Hquote _].
  destruct (Hquote eq_refl) as (_ & Hcalls' & _ & Hstored').
  destruct (no_credentials_no_dispatch mail_env ann_contact fresh_world)
    as [_ Hcalled].
  split.
  - split; [exact Hcalls|]. split; [exact Hcalls'|].
    split; [exact (Hstored eq_refl eq_refl) | exact (Hstored' eq_refl eq_refl)].
  - apply Hcalled. left. discriminate.
Defined.

Lemma store_failure_generic_500_witness :
  (post mail_env Contact ann_contact store_down).1 =
    Normal {| status := 500;
              json := JObj [("error", JStr "Failed to submit contact form")] |}
  /\ db (post mail_env Contact ann_contact store_down).2 = db store_down
  /\ console (post mail_env Contact ann_contact store_down).2 =
       [LogError "Contact form error:" ECONNREFUSED].
Proof.
  exact (store_failure_generic_500 mail_env Contact ann_contact
           store_down ECONNREFUSED eq_refl eq_refl).
Defined.

(** C8 as stated fails: a number too large for a double arrives as
    Infinity and is stored as null, and negative zero is stored as 0. *)
Lemma survey_data_not_always_preserved :
  get_property (body overflowing_survey) "surveyData" =
    JObj [("income", JNum (NumInfinity false))]
  /\ rows (survey_submissions (db (survey_handler overflowing_survey fresh_world).2)) =
       [{| id := 1;
           columns := [SqlNull; SqlJson (TObject [("income", TNull)]); SqlNull];
           created_at := 1000 |}]
  /\ read_back (stored_survey_data overflowing_survey) = JObj [("income", JNull)]
  /\ read_back (stored_survey_data overflowing_survey) <>
     get_property (body overflowing_survey) "surveyData"
  /\ read_back (stored_survey_data
                  {| body := [("surveyData", JArr [JNum NumNegZero])] |})
     = JArr [JNum (NumDyadic 0 0)].
Proof. repeat split. discriminate. Qed.

Lemma survey_data_round_trip_witness :
  (survey_handler sized_survey fresh_world).1 = Normal (survey_success fresh_world)
  /\ rows (survey_submissions (db (survey_handler sized_survey fresh_world).2)) =
       [inserted (survey_params sized_survey) 1000 empty_table]
  /\ read_back (stored_survey_data sized_survey) =
       JObj [("age", JNum (Number_of_Z 67));
             ("plans", JArr [JStr "A"; JStr "B"]);
             ("smoker", JBool false)].
Proof.
  destruct (survey_data_round_trip sized_survey fresh_world eq_refl)
    as (Hresponse & Hrows & Hback).
  split; [exact Hresponse|]. split; [exact Hrows|].
  apply Hback. reflexivity.
Defined.

Lemma dispatch_failure_after_insert_witness :
  ((contact_handler mail_env ann_contact smtp_down).1 =
     Normal {| status := 500;
               json := JObj [("error", JStr "Failed to submit contact form")] |}
   /\ rows (contact_submissions
              (db (contact_handler mail_env ann_contact smtp_down).2)) =
        [{| id := 1; columns := contact_params ann_contact; created_at := 1000 |}]
   /\ sendMail_calls (contact_handler mail_env ann_contact smtp_down).2 =
        match contact_layout ToString mail_env ann_contact smtp_down with
        | Some m => [m]
        | None => []
        end
   /\ console (contact_handler mail_env ann_contact smtp_down).2 =
        [LogError "Contact form error:" ETIMEDOUT]
   /\ exists m, contact_layout ToString mail_env ann_contact smtp_down = Some m)
  /\ ((quote_handler mail_env ann_quote smtp_down).1 =
        Normal {| status := 500;
                  json := JObj [("error", JStr "Failed to submit quote request")] |}
      /\ rows (quote_requests
                 (db (quote_handler mail_env ann_quote smtp_down).2)) =
           [{| id := 1; columns := quote_params ann_quote; created_at := 1000 |}]
      /\ sendMail_calls (quote_handler mail_env ann_quote smtp_down).2 =
           match quote_layout ToString mail_env ann_quote smtp_down with
           | Some m => [m]
           | None => []
           end
      /\ console (quote_handler mail_env ann_quote smtp_down).2 =
           [LogError "Quote request error:" ETIMEDOUT]
      /\ exists m, quote_layout ToString mail_env ann_quote smtp_down = Some m).
Proof.
  destruct (dispatch_failure_after_insert mail_env ann_contact smtp_down ETIMEDOUT
              eq_refl eq_refl eq_refl) as [Hcontact _].
  destruct (Hcontact eq_refl) as (Hresp & Hrows & Hcalls & Hconsole & Hm).
  destruct (dispatch_failure_after_insert mail_env ann_quote smtp_down ETIMEDOUT
              eq_refl eq_refl eq_refl) as [_ Hquote].
  destruct (Hquote eq_refl) as (Hresp' & Hrows' & Hcalls' & Hconsole' & Hm').
  split.
  - split; [exact Hresp|]. split; [exact Hrows|]. split; [exact Hcalls|].
    split; [exact Hconsole | exact (Hm eq_refl)].
  - split; [exact Hresp'|]. split; [exact Hrows'|]. split; [exact Hcalls'|].
    split; [exact Hconsole' | exact (Hm' eq_refl)].
Defined.
End Examples.

(** ** The pipeline as a whole: what every route does *)

Section Routes.
Context `{!JsRuntime}.
Variable env : Env.

(** Every route follows the same course: reject, or store, then, where a
    mail is due, compose it and hand it to the transport, then answer;
    the catch block takes over at the first step that raises. *)
Lemma post_course e req w :
  post env e req w =
    if required e req then
      match pool_fault w with
      | Some err =>
          (Normal (res_status_json 500 (error_body (failure_message e))),
           write_console (LogError (failure_label e) err) w)
      | None =>
          if mail_due env e then
            match notification env e req w with
            | Some m =>
                match smtp_fault w with
                | Some err =>
                    (Normal (res_status_json 500 (error_body (failure_message e))),
                     write_console (LogError (failure_label e) err)
                       (record_sendMail m (stored e req w)))
                | None =>
                    (Normal (success_response env e w),
                     record_sendMail m (stored e req w))
                end
            | None =>
                (Normal (res_status_json 500 (error_body (failure_message e))),
                 write_console (LogError (failure_label e) ToPrimitive_TypeError)
                   (stored e req w))
            end
          else (Normal (success_response env e w), stored e req w)
      end
    else
      (Normal (res_status_json 400 (error_body (rejection_message e))), w).
Proof.
  unfold mail_due. destruct e; simpl.
  - rewrite contact_handler_course. destruct (email_configured env); reflexivity.
  - apply appointment_handler_course.
  - rewrite quote_handler_course. destruct (email_configured env); reflexivity.
  - apply survey_handler_course.
  - apply newsletter_handler_course.
Qed.

(** The status of the answer, route by route. *)
Lemma post_status e req w :
  status_of (post env e req w).1 =
    Some (if required e req
          then match failure env e req w with
               | Some _ => 500
               | None => 200
               end
          else 400).
Proof.
  rewrite post_course. unfold failure.
  destruct (required e req); [|reflexivity].
  destruct (pool_fault w); [reflexivity|].
  destruct (mail_due env e); [|destruct e; reflexivity].
  destruct (notification env e req w); [|reflexivity].
  destruct (smtp_fault w); [reflexivity|]. destruct e; reflexivity.
Qed.

(** A mail is due on the contact and quote routes only, with the account
    configured. *)
Lemma mail_due_spec e :
  mail_due env e = true -> notifies e = true /\ email_configured env = true.
Proof. unfold mail_due. intros [Hroute Hconf]%andb_prop. split; assumption. Qed.

(** A composed mail is addressed from EMAIL_FROM to EMAIL_USER. *)
Lemma notification_addresses e req w m :
  notification env e req w = Some m ->
  from m = getenv env "EMAIL_FROM" /\ to m = getenv env "EMAIL_USER".
Proof.
  destruct e; simpl; try discriminate.
  - unfold contact_mail, contact_mailOptions.
    repeat (match goal with
            | |- context [ToString ?v] => destruct (ToString v)
            end; simpl; try discriminate).
    intros [= <-]. split; reflexivity.
  - unfold quote_mail, quote_mailOptions.
    repeat (match goal with
            | |- context [ToString ?v] => destruct (ToString v)
            end; simpl; try discriminate).
    intros [= <-]. split; reflexivity.
Qed.

(** X1. Every POST route answers every request in every world, and never
    throws: 400 when required fields are missing, otherwise 500 when the
    store raises or when composing or sending a due notification raises,
    otherwise 200. *)
Theorem post_always_responds e req w :
  status_of (post env e req w).1 =
    Some (if required e req
          then match failure env e req w with
               | Some _ => 500
               | None => 200
               end
          else 400).
Proof. apply post_status. Qed.

(** X2. A 400 answer means that required fields were missing and that
    the request did nothing: no row, no mail, no console line; the world
    is the one before. *)
Theorem rejection_changes_nothing e req w :
  status_of (post env e req w).1 = Some 400 ->
  required e req = false
  /\ post env e req w =
       (Normal (res_status_json 400 (error_body (rejection_message e))), w).
Proof.
  intros Hstatus. rewrite post_status in Hstatus.
  destruct (required e req) eqn:Hreq.
  - destruct (failure env e req w); discriminate.
  - split; [reflexivity|]. rewrite post_course, Hreq. reflexivity.
Qed.

(** The world after a request, table by table. *)
Lemma post_tables e req w other :
  table_of other (db (post env e req w).2) =
    if Endpoint_eqb e other
    then table_of e (db (if required e req
                         then match pool_fault w with
                              | Some _ => w
                              | None => stored e req w
                              end
                         else w))
    else table_of other (db w).
Proof.
  rewrite post_course. destruct (required e req).
  - destruct (pool_fault w).
    + destruct e, other; reflexivity.
    + destruct (mail_due env e);
        [destruct (notification env e req w); [destruct (smtp_fault w)|]|];
        destruct e, other; reflexivity.
  - destruct e, other; reflexivity.
Qed.

(** X3. A route writes to its own table only: the four other tables are
    after the request what they were before, and the handler changes
    neither the clock nor the state of the two services. *)
Theorem post_touches_only_its_table e other req w :
  Endpoint_eqb e other = false ->
  table_of other (db (post env e req w).2) = table_of other (db w)
  /\ now (post env e req w).2 = now w
  /\ pool_fault (post env e req w).2 = pool_fault w
  /\ smtp_fault (post env e req w).2 = smtp_fault w.
Proof.
  intros Hother. rewrite post_tables, Hother. split; [reflexivity|].
  rewrite post_course.
  destruct (required e req); [|repeat split].
  destruct (pool_fault w) eqn:Hpool; [repeat split; exact Hpool|].
  destruct (mail_due env e);
    [destruct (notification env e req w); [destruct (smtp_fault w) eqn:Hsmtp|]|];
    destruct e; repeat split; assumption.
Qed.

(** The rows of an inserting route's table after a request. *)
Lemma post_rows e req w :
  Endpoint_eqb e Newsletter = false ->
  rows (table_of e (db (post env e req w).2)) =
    (rows (table_of e (db w)) ++
     if required e req
     then match pool_fault w with
          | Some _ => []
          | None => [inserted (params e req) (now w) (table_of e (db w))]
          end
     else [])%list.
Proof.
  intros Hinsert. rewrite post_tables.
  replace (Endpoint_eqb e e) with true by (destruct e; reflexivity).
  destruct (required e req); [|symmetry; apply app_nil_r].
  destruct (pool_fault w); [symmetry; apply app_nil_r|].
  destruct e; try discriminate Hinsert; reflexivity.
Qed.

(** X4. The four inserting routes only ever append: the rows already in
    the table stay as they are, and one row is added exactly when the
    required fields are present and the store takes the insert. The row
    stays when the notification fails afterwards. *)
Theorem insert_appends_one_row e req w :
  Endpoint_eqb e Newsletter = false ->
  rows (table_of e (db (post env e req w).2)) =
    (rows (table_of e (db w)) ++
     if required e req
     then match pool_fault w with
          | Some _ => []
          | None => [inserted (params e req) (now w) (table_of e (db w))]
          end
     else [])%list.
Proof. apply post_rows. Qed.

(** X5. The identifier in a success response is the identifier of the row
    the request stored, which is the last row of the route's table and
    holds the submitted values and the time of the request. *)
Theorem success_id_is_the_stored_row e name req w :
  id_field e = Some name ->
  is_success (post env e req w).1 = true ->
  exists resp r,
    (post env e req w).1 = Normal resp
    /\ last (rows (table_of e (db (post env e req w).2))) = Some r
    /\ js_get (json resp) name = JNum (Number_of_Z (id r))
    /\ columns r = params e req
    /\ created_at r = now w.
Proof.
  intros Hname Hsuccess.
  assert (Endpoint_eqb e Newsletter = false) as Hinsert
    by (destruct e; try reflexivity; discriminate Hname).
  rewrite (post_rows e req w Hinsert).
  rewrite post_course in Hsuccess |- *.
  destruct (required e req); [|discriminate Hsuccess].
  destruct (pool_fault w); [discriminate Hsuccess|].
  exists (success_response env e w),
    (inserted (params e req) (now w) (table_of e (db w))).
  rewrite last_snoc.
  destruct (mail_due env e);
    [destruct (notification env e req w);
       [destruct (smtp_fault w); [discriminate Hsuccess|]
       |discriminate Hsuccess]|];
    (split; [reflexivity|]; split; [reflexivity|];
     split; [|split; reflexivity]);
    destruct e; simpl in Hname; simplify_eq; reflexivity.
Qed.

(** The calls of the mail transport after a request. *)
Lemma post_sendMail_calls e req w :
  sendMail_calls (post env e req w).2 =
    (sendMail_calls w ++
     if required e req
     then match pool_fault w with
          | Some _ => []
          | None =>
              if mail_due env e
              then match notification env e req w with
                   | Some m => [m]
                   | None => []
                   end
              else []
          end
     else [])%list.
Proof.
  rewrite post_course.
  destruct (required e req); [|symmetry; apply app_nil_r].
  destruct (pool_fault w); [symmetry; apply app_nil_r|].
  destruct (mail_due env e); [|destruct e; symmetry; apply app_nil_r].
  destruct (notification env e req w) as [m|].
  - destruct (smtp_fault w); destruct e; reflexivity.
  - destruct e; symmetry; apply app_nil_r.
Qed.

(** X6. A request calls the mail transport at most once, and only after
    its row is stored: a call means that the route is the contact or the
    quote route, that the credentials are configured, that the required
    fields were present and that the insert went through. A rejected
    request or one the store refused sends nothing. *)
Theorem mail_only_after_storing e req w :
  sendMail_calls (post env e req w).2 <> sendMail_calls w ->
  notifies e = true
  /\ email_configured env = true
  /\ required e req = true
  /\ pool_fault w = None
  /\ (exists m,
        sendMail_calls (post env e req w).2 = (sendMail_calls w ++ [m])%list)
  /\ rows (table_of e (db (post env e req w).2)) =
       (rows (table_of e (db w)) ++
        [inserted (params e req) (now w) (table_of e (db w))])%list.
Proof.
  intros Hcalled.
  assert (notifies e = true -> Endpoint_eqb e Newsletter = false) as Hinsert
    by (destruct e; simpl; congruence).
  rewrite post_sendMail_calls in Hcalled |- *.
  destruct (required e req) eqn:Hreq;
    [|rewrite app_nil_r in Hcalled; contradiction].
  destruct (pool_fault w) eqn:Hpool;
    [rewrite app_nil_r in Hcalled; contradiction|].
  destruct (mail_due env e) eqn:Hdue;
    [|rewrite app_nil_r in Hcalled; contradiction].
  destruct (notification env e req w) as [m|] eqn:Hmail;
    [|rewrite app_nil_r in Hcalled; contradiction].
  destruct (mail_due_spec e Hdue) as [Hroute Hconf].
  repeat split; try assumption; [exists m; reflexivity|].
  rewrite (post_rows e req w (Hinsert Hroute)), Hreq, Hpool.
  reflexivity.
Qed.

(** X7. Whatever mail a request sends goes to the configured account,
    EMAIL_USER, from EMAIL_FROM: the addresses a visitor submits are
    never used as sender or recipient. *)
Theorem mail_goes_to_the_configured_account e req w m :
  sendMail_calls (post env e req w).2 = (sendMail_calls w ++ [m])%list ->
  from m = getenv env "EMAIL_FROM"
  /\ exists user, env !! "EMAIL_USER" = Some user /\ user <> "" /\ to m = JStr user.
Proof.
  rewrite post_sendMail_calls. intros Hsent. apply app_inv_head in Hsent.
  destruct (required e req); [|discriminate Hsent].
  destruct (pool_fault w); [discriminate Hsent|].
  destruct (mail_due env e) eqn:Hdue; [|discriminate Hsent].
  destruct (notification env e req w) as [m'|] eqn:Hmail; [|discriminate Hsent].
  injection Hsent as <-.
  destruct (mail_due_spec e Hdue) as [_ Hconf].
  apply email_configured_spec in Hconf as (user & password & Huser & Hne & _).
  destruct (notification_addresses e req w m' Hmail) as [Hfrom Hto].
  split; [exact Hfrom|].
  exists user. split; [exact Huser|]. split; [exact Hne|].
  rewrite Hto. unfold getenv. rewrite Huser. reflexivity.
Qed.

(** The console after a request. *)
Lemma post_console e req w :
  console (post env e req w).2 =
    (console w ++
     if required e req
     then match failure env e req w with
          | Some err => [LogError (failure_label e) err]
          | None => []
          end
     else [])%list.
Proof.
  rewrite post_course. unfold failure.
  destruct (required e req); [|symmetry; apply app_nil_r].
  destruct (pool_fault w); [reflexivity|].
  destruct (mail_due env e);
    [destruct (notification env e req w); [destruct (smtp_fault w)|]|];
    destruct e; try reflexivity; symmetry; apply app_nil_r.
Qed.

(** X8. A handler writes to the console exactly when it answers 500, and
    then one line: the route's label with the error that was raised, be it
    the store's, the mail transport's, or the TypeError of composing a
    mail from a value that has no string form. *)
Theorem console_written_exactly_on_500 e req w :
  console (post env e req w).2 =
    (console w ++
     if required e req
     then match failure env e req w with
          | Some err => [LogError (failure_label e) err]
          | None => []
          end
     else [])%list
  /\ (status_of (post env e req w).1 = Some 500 <->
      console (post env e req w).2 <> console w).
Proof.
  split; [apply post_console|].
  rewrite post_console, post_status.
  destruct (required e req); [destruct (failure env e req w)|].
  - split; [intros _ Heq|reflexivity].
    apply (f_equal (@length _)) in Heq. rewrite length_app in Heq.
    simpl in Heq. lia.
  - rewrite app_nil_r. split; [discriminate | congruence].
  - rewrite app_nil_r. split; [discriminate | congruence].
Qed.
End Routes.

(** ** Configuration and the error middleware *)

Section Configuration.
Context `{!JsRuntime}.



(** X10. The error middleware always answers 500 with the fixed error
    text, logs the stack and leaves the store alone; the error's message
    is in the body when NODE_ENV is exactly 'development' and is
    [undefined] otherwise, unset and other spellings included. *)
Theorem error_middleware_reveals_message_only_in_development env err req w :
  exists r,
    error_middleware env err req w = (Normal r, write_console (LogText (stack err)) w)
    /\ status r = 500
    /\ js_get (json r) "error" = JStr "Something went wrong!"
    /\ js_get (json r) "message" =
         (if bool_decide (env !! "NODE_ENV" = Some "development")
          then JStr (message err)
          else JUndefined).
Proof.
  eexists. split; [reflexivity|]. split; [reflexivity|]. split; [reflexivity|].
  simpl. unfold getenv. case_bool_decide as Hmode.
  - rewrite Hmode. reflexivity.
  - destruct (env !! "NODE_ENV") as [mode|]; [|reflexivity]. simpl.
    destruct (String.eqb_spec mode "development"); [congruence | reflexivity].
Qed.


(** X12. The port is never empty: an unset or empty PORT gives 5000, and
    otherwise PORT is used as the string it is. The CORS origin likewise
    falls back to '*'. *)
Theorem port_and_origin_defaults env :
  ToBoolean (PORT env) = true
  /\ (PORT env = JNum (Number_of_Z 5000) <->
      env !! "PORT" = None \/ env !! "PORT" = Some "")
  /\ (forall p, PORT env = JStr p <-> env !! "PORT" = Some p /\ p <> "")
  /\ ToBoolean (cors_origin env) = true
  /\ (forall o, cors_origin env = JStr o <->
        (env !! "CORS_ORIGIN" = Some o /\ o <> "")
        \/ (o = "*" /\ (env !! "CORS_ORIGIN" = None \/ env !! "CORS_ORIGIN" = Some ""))).
Proof.
  assert (forall name d,
             js_or (getenv env name) d =
               match env !! name with
               | Some s => if String.eqb s "" then d else JStr s
               | None => d
               end) as Hor.
  { intros name d. unfold js_or, getenv.
    destruct (env !! name) as [s|]; [|reflexivity]. simpl.
    destruct (String.eqb s ""); reflexivity. }
  unfold PORT, cors_origin. rewrite !Hor.
  split; [|split; [|split; [|split]]].
  - destruct (env !! "PORT") as [p|]; [|reflexivity].
    destruct (String.eqb_spec p ""); [reflexivity|]. simpl.
    destruct (String.eqb_spec p ""); [contradiction | reflexivity].
  - destruct (env !! "PORT") as [p|]; [|split; auto].
    destruct (String.eqb_spec p "") as [->|Hne].
    + split; auto.
    + split; [discriminate|]. intros [|]; congruence.
  - intros q. destruct (env !! "PORT") as [p|].
    + destruct (String.eqb_spec p "") as [->|Hne].
      * split; [discriminate|]. intros [? ?]. congruence.
      * split; [intros [= ->]; auto | intros [[= ->] _]; reflexivity].
    + split; [discriminate | intros [? _]; discriminate].
  - destruct (env !! "CORS_ORIGIN") as [o|]; [|reflexivity].
    destruct (String.eqb_spec o ""); [reflexivity|]. simpl.
    destruct (String.eqb_spec o ""); [contradiction | reflexivity].
  - intros q. destruct (env !! "CORS_ORIGIN") as [o|].
    + destruct (String.eqb_spec o "") as [->|Hne].
      * split; [intros [= <-]; auto|].
        intros [[? ?]|[-> _]]; [congruence | reflexivity].
      * split; [intros [= ->]; auto|].
        intros [[[= ->] _]|[_ [|]]]; try reflexivity; congruence.
    + split; [intros [= <-]; auto|].
      intros [[? _]|[-> _]]; [discriminate | reflexivity].
Qed.
End Configuration.

(** ** The newsletter table, row by row *)

Section Subscriptions.
Context `{!JsRuntime}.

Section Rows.
Variable key : SqlValue.

Lemma find_is_first_of_filter l :
  find (conflicts key) l = head (List.filter (conflicts key) l).
Proof.
  induction l as [|x l IH]; [reflexivity|]. simpl.
  destruct (conflicts key x); [reflexivity | exact IH].
Qed.

(** Under the unique index, the row found is the only row that collides. *)
Lemma only_conflict l old x :
  (length (List.filter (conflicts key) l) <= 1)%nat ->
  find (conflicts key) l = Some old ->
  In x l -> conflicts key x = true -> x = old.
Proof.
  intros Hunique Hfind Hin Hx. rewrite find_is_first_of_filter in Hfind.
  assert (In x (List.filter (conflicts key) l)) as Hfiltered
    by (apply List.filter_In; split; assumption).
  destruct (List.filter (conflicts key) l) as [|y [|z rest]];
    simpl in *; [contradiction | | lia].
  destruct Hfiltered as [<-|[]]. congruence.
Qed.

Lemma overwrite_keeps_ids r l :
  (forall x, In x l -> conflicts key x = true -> id x = id r) ->
  map id (map (fun x => if conflicts key x then r else x) l) = map id l.
Proof.
  induction l as [|x l IH]; intros Hids; [reflexivity|]. simpl.
  rewrite IH by (intros y Hy; apply Hids; right; exact Hy).
  destruct (conflicts key x) eqn:Hx; [|reflexivity].
  rewrite (Hids x (or_introl eq_refl) Hx). reflexivity.
Qed.

Lemma overwrite_keeps_subscribed other r l :
  conflicts other r = sql_eqb key other ->
  existsb (conflicts other) l = true ->
  existsb (conflicts other) (map (fun x => if conflicts key x then r else x) l)
  = true.
Proof.
  intros Hr. induction l as [|x l IH]; [discriminate|]. simpl.
  intros [Hx|Hl]%orb_prop; [|rewrite (IH Hl); apply orb_true_r].
  destruct (conflicts key x) eqn:Hkey; [|rewrite Hx; reflexivity].
  rewrite Hr, <- (conflicts_elsewhere key other x Hkey), Hx. reflexivity.
Qed.
End Rows.

(** The upsert changes no identifier already handed out. *)
Lemma upsert_conflict_keeps_ids key name now t old :
  unique_emails t ->
  find (conflicts key) (rows t) = Some old ->
  map id (rows (upsert_returning key name now t).2) = map id (rows t).
Proof.
  intros Hunique Hfind. unfold upsert_returning. rewrite Hfind. simpl.
  apply overwrite_keeps_ids. intros x Hin Hx. simpl.
  rewrite (only_conflict key (rows t) old x (Hunique key) Hfind Hin Hx).
  reflexivity.
Qed.

(** X13. Subscribing an address that is already in the table (with the
    unique index in place) updates its row where it stands: no row is
    added, every row keeps its identifier, and the row of the address now
    holds the submitted name (NULL when the request has none) and the time
    of this request. *)
Theorem resubscription_updates_in_place req w old :
  newsletter_required req = true ->
  pool_fault w = None ->
  unique_emails (newsletter_subscriptions (db w)) ->
  In old (rows (newsletter_subscriptions (db w))) ->
  conflicts (field req "email") old = true ->
  map id (rows (newsletter_subscriptions (db (newsletter_handler req w).2))) =
    map id (rows (newsletter_subscriptions (db w)))
  /\ subscriptions_of (get_property (body req) "email") (newsletter_handler req w).2 =
       [{| id := id old;
           columns := [field req "email"; field req "name"];
           created_at := now w |}].
Proof.
  intros Hreq Hpool Hunique Hin Hold.
  rewrite newsletter_handler_course, Hreq, Hpool.
  unfold subscriptions_of, newsletter_stored. simpl.
  fold (field req "email").
  set (t := newsletter_subscriptions (db w)) in *.
  destruct (find (conflicts (field req "email")) (rows t)) as [first|] eqn:Hfind.
  - assert (old = first) as <-.
    { apply (only_conflict (field req "email") (rows t)); auto. }
    split; [apply (upsert_conflict_keeps_ids _ _ _ _ old Hunique Hfind)|].
    assert (sql_eqb (field req "email") (field req "email") = true) as Hown.
    { rewrite <- (conflicts_elsewhere _ (field req "email") old Hold). exact Hold. }
    unfold upsert_returning. rewrite Hfind. simpl.
    rewrite (filter_overwritten (field req "email")
               {| id := id old; columns := [field req "email"; field req "name"];
                  created_at := now w |} (rows t) Hown).
    pose proof (Hunique (field req "email")) as Hone.
    rewrite find_is_first_of_filter in Hfind.
    destruct (List.filter (conflicts (field req "email")) (rows t)) as [|y [|z rest]];
      simpl in *; [discriminate | reflexivity | lia].
  - apply find_none with (x := old) in Hfind; [congruence | exact Hin].
Qed.

(** X14. Subscribing an address that has no row yet, addresses being
    compared as the texts sent to the store, appends one row, with the
    next identifier, the submitted address and name and the time of the
    request, and leaves every row already there as it is. *)
Theorem first_subscription_appends req w :
  newsletter_required req = true ->
  pool_fault w = None ->
  subscriptions_of (get_property (body req) "email") w = [] ->
  rows (newsletter_subscriptions (db (newsletter_handler req w).2)) =
    (rows (newsletter_subscriptions (db w)) ++
     [{| id := next_id (newsletter_subscriptions (db w));
         columns := [field req "email"; field req "name"];
         created_at := now w |}])%list.
Proof.
  intros Hreq Hpool Hnew. rewrite newsletter_handler_course, Hreq, Hpool.
  unfold subscriptions_of in Hnew. fold (field req "email") in Hnew.
  unfold newsletter_stored, upsert_returning. simpl.
  rewrite find_is_first_of_filter, Hnew. reflexivity.
Qed.

(** X15. A subscription request leaves the rows of every other address,
    one whose text as sent to the store differs from the submitted one's,
    as they are, whatever the request and the state of the store. *)
Theorem other_subscribers_untouched req w other :
  sql_eqb (field req "email") other = false ->
  List.filter (conflicts other)
    (rows (newsletter_subscriptions (db (newsletter_handler req w).2))) =
  List.filter (conflicts other) (rows (newsletter_subscriptions (db w))).
Proof.
  intros Hother. rewrite newsletter_handler_course.
  destruct (newsletter_required req); [|reflexivity].
  destruct (pool_fault w); [reflexivity|].
  unfold newsletter_stored, upsert_returning. simpl.
  destruct (find _ _) as [old|]; simpl.
  - apply filter_overwritten_elsewhere; [reflexivity | exact Hother].
  - rewrite List.filter_app. simpl. unfold conflicts at 2. simpl.
    rewrite Hother. apply app_nil_r.
Qed.

(** Addresses are compared as the texts sent to the store: under a host
    that prints the number 1 as the digit 1, a subscription under the
    string of that digit finds the row stored under the number and
    updates it. *)
Lemma number_and_digit_collide :
  Number_toString (Number_of_Z 1) = "1" ->
  rows (newsletter_subscriptions
          (db (newsletter_handler digit_newsletter
                 (set_now 2000
                    (newsletter_handler number_newsletter fresh_world).2)).2))
  = [{| id := 1;
        columns := [SqlBound (JStr "1"); SqlBound (JStr "Uno")];
        created_at := 2000 |}].
Proof.
  intros Hone. rewrite !newsletter_handler_course. simpl.
  unfold newsletter_stored, upsert_returning, conflicts. simpl.
  rewrite Hone. reflexivity.
Qed.
End Subscriptions.

(** ** What a survey reads back as *)

Lemma JSON_stringify_parse_exact v t :
  JSON_stringify v = Some t -> json_exact (JSON_parse t) = true.
Proof.
  revert t.
  induction v as [| |b|n|s|items IH|props IH] using JsValue_nested_ind; simpl;
    intros t Hwrite; simplify_eq; try reflexivity.
  - destruct n; simplify_eq; reflexivity.
  - simpl. induction IH as [|x l Hx _ IHl]; [reflexivity|]. simpl.
    rewrite IHl, andb_true_r. unfold stringify_element.
    destruct (JSON_stringify x) as [t|]; [apply Hx|]; reflexivity.
  - simpl. induction IH as [|[k x] l Hx _ IHl]; [reflexivity|]. simpl in *.
    destruct (JSON_stringify x) as [t|]; [|exact IHl]. simpl.
    rewrite IHl, andb_true_r. apply Hx. reflexivity.
Qed.

(** X16. Whatever surveyData a request carries, what its stored value
    reads back as is a value JSON writes down exactly, so storing what was
    read back and reading it again gives the same value: the loss happens
    once, on the first write. *)
Theorem survey_read_back_is_stable req :
  json_exact (read_back (stored_survey_data req)) = true
  /\ read_back
       (prepareJson (JSON_stringify (read_back (stored_survey_data req)))) =
     read_back (stored_survey_data req).
Proof.
  assert (json_exact (read_back (stored_survey_data req)) = true) as Hexact.
  { unfold stored_survey_data, survey_params. simpl.
    destruct (JSON_stringify _) as [t|] eqn:Hwrite; [|reflexivity].
    simpl. exact (JSON_stringify_parse_exact _ t Hwrite). }
  split; [exact Hexact|].
  destruct (JSON_roundtrip _ Hexact) as (t & -> & Hparse). exact Hparse.
Qed.

(** ** Sequences of requests *)

Lemma with_row_fresh_ids values now t :
  fresh_ids t -> fresh_ids (with_row values now t).
Proof.
  intros [Hbelow Hdistinct]. unfold fresh_ids, with_row, inserted. simpl. split.
  - apply Forall_app. split.
    + eapply Forall_impl; [exact Hbelow|]. simpl. intros r Hr. lia.
    + apply Forall_cons. split; [simpl; lia | apply Forall_nil; exact I].
  - rewrite map_app. simpl. apply NoDup_app. split; [exact Hdistinct|].
    split; [|apply NoDup_singleton].
    intros i Hi Hnew. apply list_elem_of_singleton in Hnew. subst i.
    apply list_elem_of_In, in_map_iff in Hi as (r & Hid & Hr).
    rewrite List.Forall_forall in Hbelow. specialize (Hbelow r Hr). lia.
Qed.

Section Sequences.
Context `{!JsRuntime}.
Variable env : Env.

Lemma upsert_fresh_ids key name now t :
  unique_emails t -> fresh_ids t -> fresh_ids (upsert_returning key name now t).2.
Proof.
  intros Hunique Hfresh.
  destruct (find (conflicts key) (rows t)) as [old|] eqn:Hfind.
  - destruct Hfresh as [Hbelow Hdistinct]. split.
    + rewrite List.Forall_forall in Hbelow |- *.
      assert (id old < next_id t) as Hold
        by (apply Hbelow; apply find_some in Hfind as [? _]; assumption).
      unfold upsert_returning. rewrite Hfind. simpl.
      intros x Hx. apply in_map_iff in Hx as (y & <- & Hy).
      destruct (conflicts key y); simpl; [lia|].
      specialize (Hbelow y Hy). lia.
    + rewrite (upsert_conflict_keeps_ids key name now t old Hunique Hfind).
      exact Hdistinct.
  - unfold upsert_returning. rewrite Hfind.
    exact (with_row_fresh_ids [key; name] now t Hfresh).
Qed.

Lemma post_keeps_wellformed e req w :
  wellformed (db w) -> wellformed (db (post env e req w).2).
Proof.
  intros [Hfresh Hunique]. split.
  - intros other. rewrite post_tables.
    destruct (Endpoint_eqb e other) eqn:Hsame; [|apply Hfresh].
    destruct (required e req); [|apply Hfresh].
    destruct (pool_fault w); [apply Hfresh|].
    destruct e; simpl.
    + apply with_row_fresh_ids, (Hfresh Contact).
    + apply with_row_fresh_ids, (Hfresh Appointment).
    + apply with_row_fresh_ids, (Hfresh Quote).
    + apply with_row_fresh_ids, (Hfresh Survey).
    + apply upsert_fresh_ids; [exact Hunique | apply (Hfresh Newsletter)].
  - change (unique_emails (table_of Newsletter (db (post env e req w).2))).
    rewrite post_tables.
    destruct (Endpoint_eqb e Newsletter) eqn:Hsame; [|exact Hunique].
    destruct e; try discriminate Hsame.
    destruct (required Newsletter req); [|exact Hunique].
    destruct (pool_fault w); [exact Hunique|].
    simpl. apply upsert_keeps_unique, Hunique.
Qed.

Lemma step_keeps_db_or_posts w w' :
  step env w w' -> db w' = db w \/ exists e req, w' = (post env e req w).2.
Proof.
  intros [e req w0|err req w0|w0 t store mail]; [right; eauto | left | left];
    reflexivity.
Qed.

(** X17. From a well-formed store (an empty one is), every world the
    server can reach through any sequence of requests, failures and
    outside changes has a well-formed store again: in every table the
    identifiers are pairwise distinct and below the next one to be handed
    out, and the newsletter table holds at most one row per address. *)
Theorem reachable_store_wellformed start w :
  wellformed (db start) ->
  reachable env start w ->
  wellformed (db w).
Proof.
  intros Hstart Hreach. induction Hreach as [|w w' _ IH Hstep]; [exact Hstart|].
  destruct (step_keeps_db_or_posts w w' Hstep) as [->|(e & req & ->)];
    [exact IH | apply post_keeps_wellformed, IH].
Qed.

Lemma post_grows e req w :
  sendMail_calls w `prefix_of` sendMail_calls (post env e req w).2
  /\ console w `prefix_of` console (post env e req w).2
  /\ (forall other, Endpoint_eqb other Newsletter = false ->
        rows (table_of other (db w)) `prefix_of`
        rows (table_of other (db (post env e req w).2)))
  /\ (forall key, subscribed key (newsletter_subscriptions (db w)) = true ->
        subscribed key (newsletter_subscriptions (db (post env e req w).2)) = true).
Proof.
  split; [rewrite post_sendMail_calls; apply prefix_app_r; reflexivity|].
  split.
  { rewrite post_console. apply prefix_app_r. reflexivity. }
  split.
  - intros other Hinsert.
    destruct (Endpoint_eqb e other) eqn:Hsame.
    + assert (e = other) as <- by (destruct e, other; congruence || discriminate).
      rewrite (post_rows env e req w Hinsert).
      apply prefix_app_r. reflexivity.
    + rewrite post_tables, Hsame. reflexivity.
  - intros key Hkey.
    change (subscribed key (table_of Newsletter (db (post env e req w).2)) = true).
    rewrite post_tables.
    destruct (Endpoint_eqb e Newsletter) eqn:Hsame; [|exact Hkey].
    destruct e; try discriminate Hsame.
    destruct (required Newsletter req); [|exact Hkey].
    destruct (pool_fault w); [exact Hkey|].
    simpl. unfold subscribed, upsert_returning in *.
    destruct (find _ _) as [old|]; simpl.
    + apply overwrite_keeps_subscribed; [reflexivity | exact Hkey].
    + rewrite existsb_app, Hkey. reflexivity.
Qed.

(** X18. Nothing the server does removes anything: along any sequence
    of requests, failures and outside changes, the mails sent and the
    console lines written so far stay and are only added to, the rows of
    the contact, appointment, quote and survey tables stay as they are
    with new rows after them, and an address once subscribed stays
    subscribed. *)
Theorem reachable_only_grows start w :
  reachable env start w ->
  sendMail_calls start `prefix_of` sendMail_calls w
  /\ console start `prefix_of` console w
  /\ (forall e, Endpoint_eqb e Newsletter = false ->
        rows (table_of e (db start)) `prefix_of` rows (table_of e (db w)))
  /\ (forall key, subscribed key (newsletter_subscriptions (db start)) = true ->
        subscribed key (newsletter_subscriptions (db w)) = true).
Proof.
  intros Hreach.
  induction Hreach as [|w w' _ (Hmail & Hconsole & Hrows & Hsubscribed) Hstep].
  { repeat split; intros; (reflexivity || assumption). }
  destruct Hstep as [e req w|err req w|w t store mail].
  - destruct (post_grows e req w) as (Hmail' & Hconsole' & Hrows' & Hsubscribed').
    split; [etrans; eassumption|]. split; [etrans; eassumption|].
    split; [intros other Hother; etrans; [apply Hrows|apply Hrows']; exact Hother|].
    intros key Hkey. apply Hsubscribed', Hsubscribed, Hkey.
  - split; [exact Hmail|]. split; [|split; assumption].
    etrans; [exact Hconsole|]. simpl. apply prefix_app_r. reflexivity.
  - repeat split; assumption.
Qed.

(** X19. The newsletter table never comes to hold two rows for one
    address: if it holds at most one row per address at the start, it does
    so in every world the server can reach. *)
Theorem reachable_emails_unique start w :
  unique_emails (newsletter_subscriptions (db start)) ->
  reachable env start w ->
  unique_emails (newsletter_subscriptions (db w)).
Proof.
  intros Hstart Hreach. induction Hreach as [|w w' _ IH Hstep]; [exact Hstart|].
  destruct (step_keeps_db_or_posts w w' Hstep) as [->|(e & req & ->)];
    [exact IH|].
  change (unique_emails (table_of Newsletter (db (post env e req w).2))).
  rewrite post_tables.
  destruct (Endpoint_eqb e Newsletter) eqn:Hsame; [|exact IH].
  destruct e; try discriminate Hsame.
  destruct (required Newsletter req); [|exact IH].
  destruct (pool_fault w); [exact IH|].
  simpl. apply upsert_keeps_unique, IH.
Qed.
End Sequences.

Lemma empty_database_wellformed `{!JsRuntime} : wellformed empty_database.
Proof.
  split; [|exact empty_table_unique].
  intros e. destruct e; (split; [apply Forall_nil; exact I | apply NoDup_nil_2]).
Qed.

(** ** The whole pipeline on concrete requests *)

Section Runs.
#[local] Existing Instance marker_runtime.

Lemma rejection_changes_nothing_witness :
  required Newsletter anonymous_contact = false
  /\ post mail_env Newsletter anonymous_contact store_down =
       (Normal (res_status_json 400
                  (error_body "Email is required for newsletter subscription")),
        store_down).
Proof.
  exact (rejection_changes_nothing mail_env Newsletter anonymous_contact store_down
           eq_refl).
Defined.

Lemma post_touches_only_its_table_witness :
  newsletter_subscriptions (db (post mail_env Contact ann_contact fresh_world).2) =
    empty_table
  /\ now (post mail_env Contact ann_contact fresh_world).2 = 1000
  /\ pool_fault (post mail_env Contact ann_contact fresh_world).2 = None
  /\ smtp_fault (post mail_env Contact ann_contact fresh_world).2 = None.
Proof.
  exact (post_touches_only_its_table mail_env Contact Newsletter ann_contact
           fresh_world eq_refl).
Defined.

Lemma insert_appends_one_row_witness :
  rows (contact_submissions (db (post mail_env Contact ann_contact smtp_down).2)) =
    [inserted (contact_params ann_contact) 1000 empty_table].
Proof.
  exact (insert_appends_one_row mail_env Contact ann_contact smtp_down eq_refl).
Defined.

Lemma success_id_is_the_stored_row_witness :
  exists resp r,
    (post bare_env Contact ann_contact fresh_world).1 = Normal resp
    /\ last (rows (contact_submissions
                     (db (post bare_env Contact ann_contact fresh_world).2))) = Some r
    /\ js_get (json resp) "submissionId" = JNum (Number_of_Z (id r))
    /\ columns r = contact_params ann_contact
    /\ created_at r = 1000.
Proof.
  exact (success_id_is_the_stored_row bare_env Contact "submissionId" ann_contact
           fresh_world eq_refl eq_refl).
Defined.

Lemma mail_only_after_storing_witness :
  notifies Contact = true
  /\ email_configured mail_env = true
  /\ required Contact ann_contact = true
  /\ pool_fault fresh_world = None
  /\ (exists m,
        sendMail_calls (post mail_env Contact ann_contact fresh_world).2 = [m])
  /\ rows (contact_submissions (db (post mail_env Contact ann_contact fresh_world).2)) =
       [inserted (contact_params ann_contact) 1000 empty_table].
Proof.
  apply (mail_only_after_storing mail_env Contact ann_contact fresh_world).
  discriminate.
Defined.

Lemma mail_goes_to_the_configured_account_witness :
  exists m,
    sendMail_calls (post mail_env Contact ann_contact fresh_world).2 = [m]
    /\ from m = JUndefined
    /\ exists user,
         mail_env !! "EMAIL_USER" = Some user /\ user <> ""
         /\ to m = JStr user.
Proof.
  eexists. split; [reflexivity|].
  apply (mail_goes_to_the_configured_account mail_env Contact ann_contact
           fresh_world).
  reflexivity.
Defined.



Lemma resubscription_updates_in_place_witness :
  map id (rows (newsletter_subscriptions
                  (db (newsletter_handler annie_newsletter ann_subscribed).2))) = [1]
  /\ subscriptions_of (JStr "a@b.com")
       (newsletter_handler annie_newsletter ann_subscribed).2 =
       [{| id := 1;
           columns := [SqlBound (JStr "a@b.com"); SqlBound (JStr "Annie")];
           created_at := 1000 |}].
Proof.
  apply (resubscription_updates_in_place annie_newsletter ann_subscribed ann_row);
    try reflexivity.
  - apply newsletter_handler_keeps_unique, empty_table_unique.
  - left. reflexivity.
Defined.

Lemma first_subscription_appends_witness :
  rows (newsletter_subscriptions (db (newsletter_handler ann_newsletter fresh_world).2)) =
    [ann_row].
Proof.
  exact (first_subscription_appends ann_newsletter fresh_world eq_refl eq_refl
           eq_refl).
Defined.

Lemma other_subscribers_untouched_witness :
  List.filter (conflicts (SqlBound (JStr "a@b.com")))
    (rows (newsletter_subscriptions
             (db (newsletter_handler
                    {| body := [("email", JStr "z@b.com")] |} ann_subscribed).2))) =
  [ann_row].
Proof.
  exact (other_subscribers_untouched {| body := [("email", JStr "z@b.com")] |}
           ann_subscribed (SqlBound (JStr "a@b.com")) eq_refl).
Defined.

Lemma reachable_store_wellformed_witness :
  wellformed
    (db (post mail_env Newsletter annie_newsletter
           (post mail_env Newsletter ann_newsletter
              (post mail_env Contact ann_contact smtp_down).2).2).2).
Proof.
  apply (reachable_store_wellformed mail_env smtp_down).
  - exact empty_database_wellformed.
  - eapply reachable_step; [|apply step_post].
    eapply reachable_step; [|apply step_post].
    eapply reachable_step; [|apply step_post].
    apply reachable_start.
Defined.

Lemma reachable_only_grows_witness :
  sendMail_calls ann_subscribed `prefix_of`
    sendMail_calls
      (post mail_env Newsletter annie_newsletter
         (post mail_env Contact ann_contact ann_subscribed).2).2
  /\ console ann_subscribed `prefix_of`
       console
         (post mail_env Newsletter annie_newsletter
            (post mail_env Contact ann_contact ann_subscribed).2).2
  /\ rows (contact_submissions (db ann_subscribed)) `prefix_of`
       rows (contact_submissions
               (db (post mail_env Newsletter annie_newsletter
                      (post mail_env Contact ann_contact ann_subscribed).2).2))
  /\ subscribed (SqlBound (JStr "a@b.com"))
       (newsletter_subscriptions
          (db (post mail_env Newsletter annie_newsletter
                 (post mail_env Contact ann_contact ann_subscribed).2).2)) = true.
Proof.
  destruct (reachable_only_grows mail_env ann_subscribed
              (post mail_env Newsletter annie_newsletter
                 (post mail_env Contact ann_contact ann_subscribed).2).2)
    as (Hmail & Hconsole & Hrows & Hsubscribed).
  { eapply reachable_step; [|apply step_post].
    eapply reachable_step; [|apply step_post].
    apply reachable_start. }
  split; [exact Hmail|]. split; [exact Hconsole|].
  split; [exact (Hrows Contact eq_refl)|].
  exact (Hsubscribed (SqlBound (JStr "a@b.com")) eq_refl).
Defined.

Lemma reachable_emails_unique_witness :
  unique_emails
    (newsletter_subscriptions
       (db (post mail_env Newsletter annie_newsletter
              (post mail_env Newsletter ann_newsletter fresh_world).2).2)).
Proof.
  apply (reachable_emails_unique mail_env fresh_world).
  - exact empty_table_unique.
  - eapply reachable_step; [|apply step_post].
    eapply reachable_step; [|apply step_post].
    apply reachable_start.
Defined.
End Runs.
